(** * A shallow embedding of the trello client (package trello)

    The package is a thin binding over net/http: every operation builds
    one URL with fmt.Sprintf, issues one request through
    http.DefaultClient and decodes the answer with encoding/json.

    Go strings are byte sequences, so they are modelled by [string]
    (a list of 8-bit [ascii]).  The effects of an operation (requests
    sent, response bodies opened and closed, nil dereferences) are
    threaded through a small state monad over [World]. *)

From Stdlib Require Import String Ascii List ZArith NArith Lia Bool.
Import ListNotations.
Open Scope string_scope.

(** ** Go strings *)

Module GoString.

(** [strings.Contains(s, sub)]. *)
Fixpoint contains (sub s : string) : bool :=
  prefix sub s ||
  match s with
  | EmptyString => false
  | String _ r => contains sub r
  end.

(** The relation [contains] decides. *)
Definition Substring (sub s : string) : Prop :=
  exists p q, s = p ++ sub ++ q.

(** Number of occurrences of the byte [c] in [s]
    ([strings.Count] with a one-byte separator). *)
Fixpoint count_char (c : ascii) (s : string) : nat :=
  match s with
  | EmptyString => 0
  | String d r => (if Ascii.eqb d c then 1 else 0) + count_char c r
  end.

(** [strings.Cut(s, sep)] for a one-byte separator: the text before
    the first [sep] and, when there is one, the text after it. *)
Fixpoint cut (sep : ascii) (s : string) : string * option string :=
  match s with
  | EmptyString => (EmptyString, None)
  | String c r =>
      if Ascii.eqb c sep then (EmptyString, Some r)
      else let (before, after) := cut sep r in (String c before, after)
  end.

(** [strings.Split(s, sep)] for a one-byte separator. *)
Fixpoint split_on (sep : ascii) (s : string) : list string :=
  match s with
  | EmptyString => [EmptyString]
  | String c r =>
      if Ascii.eqb c sep then EmptyString :: split_on sep r
      else match split_on sep r with
           | [] => [String c EmptyString]
           | h :: t => String c h :: t
           end
  end.

Fixpoint forallb_string (p : ascii -> bool) (s : string) : bool :=
  match s with
  | EmptyString => true
  | String c r => p c && forallb_string p r
  end.

End GoString.
Import GoString.

(** ** net/url: query escaping

    [url.QueryEscape] and [url.QueryUnescape] belong to the Go standard
    library; they are transcribed here from net/url (functions
    [shouldEscape], [escape] and [unescape], in mode
    [encodeQueryComponent]). *)

Module NetURL.

Definition byte_in (lo hi c : ascii) : bool :=
  (N_of_ascii lo <=? N_of_ascii c)%N && (N_of_ascii c <=? N_of_ascii hi)%N.

(** [shouldEscape(c, encodeQueryComponent)]: letters, digits and the
    marks - _ . ~ stay, every other byte is escaped. *)
Definition shouldEscape (c : ascii) : bool :=
  if byte_in "a" "z" c || byte_in "A" "Z" c || byte_in "0" "9" c then false
  else if Ascii.eqb c "-" || Ascii.eqb c "_" || Ascii.eqb c "." || Ascii.eqb c "~"
       then false
       else true.

(** [upperhex[n]] for [const upperhex = "0123456789ABCDEF"]. *)
Definition upperhex (n : N) : ascii :=
  match String.get (N.to_nat n) "0123456789ABCDEF" with
  | Some d => d
  | None => "0"%char
  end.

(** What [escape] writes for one byte: a space becomes [+], a byte
    that must be escaped becomes [%XX], any other byte is copied. *)
Definition escape_byte (c : ascii) : string :=
  if Ascii.eqb c " " then "+"
  else if shouldEscape c
       then String "%" (String (upperhex (N.shiftr (N_of_ascii c) 4))
              (String (upperhex (N.land (N_of_ascii c) 15)) EmptyString))
       else String c EmptyString.

Fixpoint QueryEscape (s : string) : string :=
  match s with
  | EmptyString => EmptyString
  | String c r => escape_byte c ++ QueryEscape r
  end.

(** [ishex] and [unhex] of net/url. *)
Definition ishex (c : ascii) : bool :=
  byte_in "0" "9" c || byte_in "a" "f" c || byte_in "A" "F" c.

Definition unhex (c : ascii) : N :=
  let n := N_of_ascii c in
  if byte_in "0" "9" c then n - 48
  else if byte_in "a" "f" c then n - 97 + 10
  else if byte_in "A" "F" c then n - 65 + 10
  else 0.

(** [url.QueryUnescape]: [None] stands for the [EscapeError]. *)
Fixpoint QueryUnescape (s : string) : option string :=
  match s with
  | EmptyString => Some EmptyString
  | String c r =>
      if Ascii.eqb c "%" then
        match r with
        | String h (String l r') =>
            if ishex h && ishex l
            then option_map
                   (String (ascii_of_N (N.lor (N.shiftl (unhex h) 4) (unhex l))))
                   (QueryUnescape r')
            else None
        | _ => None
        end
      else if Ascii.eqb c "+" then option_map (String " ") (QueryUnescape r)
      else option_map (String c) (QueryUnescape r)
  end.

(** Percent-encoding in the strict sense of RFC 3986, the reading of
    the word "percent-escaped": every byte outside the unreserved
    set, the space included, is written [%XX].  It is the yardstick
    [QueryEscape] is compared with, not code of the package. *)
Definition percent_byte (c : ascii) : string :=
  if shouldEscape c
  then String "%" (String (upperhex (N.shiftr (N_of_ascii c) 4))
         (String (upperhex (N.land (N_of_ascii c) 15)) EmptyString))
  else String c EmptyString.

Fixpoint percent_escape (s : string) : string :=
  match s with
  | EmptyString => EmptyString
  | String c r => percent_byte c ++ percent_escape r
  end.

(** A string that [QueryEscape] leaves as it is: unreserved bytes only. *)
Definition plain (s : string) : bool :=
  forallb_string (fun c => negb (shouldEscape c)) s.

(** The bytes [QueryEscape] can write. *)
Definition escaped_byte_ok (c : ascii) : bool :=
  negb (shouldEscape c) || Ascii.eqb c "%" || Ascii.eqb c "+".

(** How a server reads a request URL (net/url's [Parse] and
    [ParseQuery], without the unescaping): the fragment starts at the
    first [#], the query string at the first [?] before it, and the
    query string is a list of [name=value] pieces separated by [&]. *)
Definition before_query (url : string) : string :=
  fst (cut "?" (fst (cut "#" url))).

Definition raw_query (url : string) : string :=
  match snd (cut "?" (fst (cut "#" url))) with
  | Some q => q
  | None => EmptyString
  end.

Definition parse_param (piece : string) : string * string :=
  let (name, value) := cut "=" piece in
  (name, match value with Some v => v | None => EmptyString end).

Definition query_params (url : string) : list (string * string) :=
  map parse_param (split_on "&" (raw_query url)).

Definition query_param_names (url : string) : list string :=
  map fst (query_params url).

End NetURL.
Import NetURL.

(** ** Go values *)

Module Go.

(** An [error] is nil or carries its message. *)
Definition error := option string.

(** A pointer is nil or designates a value.  The structures of this
    package are never modified through two names at once, so a
    pointer is modelled by the value it designates. *)
Definition ptr (A : Type) := option A.

(** A slice is nil or an allocated sequence (which may be empty). *)
Definition slice (A : Type) := option (list A).

Definition len {A : Type} (s : slice A) : nat :=
  match s with
  | None => 0
  | Some l => List.length l
  end.

(** [make([]T, n)]: an allocated slice of [n] zero values. *)
Definition make {A : Type} (zero : A) (n : nat) : list A := repeat zero n.

(** [s[i] = v]; out of range is a run-time panic ([None]). *)
Fixpoint set_index {A : Type} (s : list A) (i : nat) (v : A) : option (list A) :=
  match s, i with
  | [], _ => None
  | _ :: r, O => Some (v :: r)
  | x :: r, S j => option_map (cons x) (set_index r j v)
  end.

#[local] Set Warnings "-register-all".

(** A value of type [interface{}] as encoding/json fills it. *)
Inductive jvalue : Type :=
| JNull
| JBool (b : bool)
| JNumber (literal : string)
| JString (s : string)
| JArray (items : list jvalue)
| JObject (fields : list (string * jvalue)).

(** [map[string]interface{}]: nil or a list of entries. *)
Definition jmap := option (list (string * jvalue)).

End Go.
Import Go.

(** ** The data model: client, list and board *)

Record client : Type := {
  key : string;
  token : string
}.

(** [type list struct]; the name [list] is taken by Rocq's lists. *)
Record list_ : Type := {
  list_client : ptr client;
  list_ID : string;
  ListName : string
}.

Record board : Type := {
  board_client : ptr client;
  board_ID : string;
  DescData : jvalue;
  Closed : bool;
  IDOrganization : jvalue;
  Pinned : bool;
  ShortURL : string;
  Desc : string;
  BoardName : string;
  board_URL : string;
  Prefs : jmap;
  LabelNames : jmap;
  BoardLists : slice (ptr list_)
}.

Record boardService : Type := { boardService_client : ptr client }.
Record listService : Type := { listService_client : ptr client }.

(** What encoding/json can write: the exported fields with a json
    tag.  The [client] fields carry the tag "-" and are not exported,
    so a decoder never touches them. *)
Record list_json : Type := {
  json_id : string;
  json_name : string
}.

Record board_json : Type := {
  jb_id : string;
  jb_descData : jvalue;
  jb_closed : bool;
  jb_idOrganization : jvalue;
  jb_pinned : bool;
  jb_shortUrl : string;
  jb_desc : string;
  jb_name : string;
  jb_url : string;
  jb_prefs : jmap;
  jb_labelNames : jmap;
  jb_lists : slice (ptr list_json)
}.

(** ** The world outside: net/http and encoding/json *)

Record Request : Type := {
  Method : string;
  RequestURL : string
}.

(** A response body is a stream that stays open until it is closed;
    [body_id] tells the bodies of one run apart. *)
Record Body : Type := {
  body_id : nat;
  content : string
}.

Record Response : Type := {
  StatusCode : Z;
  Status : string;
  ResponseBody : Body
}.

(** The behaviour of the libraries and of the remote service, which
    the package does not control:
    - [parse_url] is the check [http.NewRequest] makes on the URL
      (nil when it is accepted);
    - [round_trip] is what [http.DefaultClient.Do] obtains for a
      request, given the requests sent before: a status code, a status
      text and a body, or a transport error;
    - [decode_board] and [decode_list] are [json.Decoder.Decode] into
      a board and into a list: the decoded fields or the error. *)
Record Env : Type := {
  parse_url : string -> error;
  round_trip : list Request -> Request -> (Z * string * string) + string;
  decode_board : string -> board_json + string;
  decode_list : string -> list_json + string
}.

(** The observable state: the requests handed to [Do], in order, and
    the response bodies that are open. *)
Record World : Type := {
  sent : list Request;
  open_bodies : list nat
}.

Definition new_world : World := {| sent := []; open_bodies := [] |}.

Inductive outcome (A : Type) : Type :=
| Returned (a : A)
| Panicked.
Arguments Returned {A} a.
Arguments Panicked {A}.

(** A computation runs in a world and returns or panics. *)
Definition M (A : Type) : Type := World -> outcome A * World.

Definition ret {A : Type} (a : A) : M A := fun w => (Returned a, w).

Definition bind {A B : Type} (m : M A) (k : A -> M B) : M B :=
  fun w =>
    match m w with
    | (Returned a, w') => k a w'
    | (Panicked, w') => (Panicked, w')
    end.

Definition panic {A : Type} : M A := fun w => (Panicked, w).

Declare Scope go_scope.
Delimit Scope go_scope with go.
Notation "x <- m ;; k" := (bind m (fun x => k))
  (at level 61, m at next level, right associativity) : go_scope.
Notation "m ;;; k" := (bind m (fun _ => k))
  (at level 61, right associativity) : go_scope.
Open Scope go_scope.

(** [p.field] through a pointer: a nil pointer panics. *)
Definition deref {A : Type} (p : ptr A) : M A :=
  match p with
  | Some a => ret a
  | None => panic
  end.

Fixpoint remove_first (n : nat) (l : list nat) : list nat :=
  match l with
  | [] => []
  | x :: r => if Nat.eqb x n then r else x :: remove_first n r
  end.

Section Libraries.

Variable E : Env.

(** [http.NewRequest(method, url, nil)]; the three methods used are
    valid, so only the URL can be refused. *)
Definition NewRequest (method url : string) : Request + string :=
  match parse_url E url with
  | Some err => inr err
  | None => inl {| Method := method; RequestURL := url |}
  end.

(** [http.DefaultClient.Do(req)]: the request is recorded; a response
    comes with an open body. *)
Definition Do (req : Request) : M (Response + string) :=
  fun w =>
    let id := List.length (sent w) in
    match round_trip E (sent w) req with
    | inl (code, status, text) =>
        (Returned (inl {| StatusCode := code; Status := status;
                          ResponseBody := {| body_id := id; content := text |} |}),
         {| sent := sent w ++ [req]; open_bodies := id :: open_bodies w |})
    | inr err =>
        (Returned (inr err),
         {| sent := sent w ++ [req]; open_bodies := open_bodies w |})
    end.

(** [resp.Body.Close()]. *)
Definition Close_body (b : Body) : M unit :=
  fun w =>
    (Returned tt,
     {| sent := sent w; open_bodies := remove_first (body_id b) (open_bodies w) |}).

End Libraries.

(** ** The package *)

Definition baseURL : string := "https://api.trello.com".

Definition NewClient (key token : string) : ptr client :=
  Some {| key := key; token := token |}.

Definition BoardService (c : ptr client) : boardService :=
  {| boardService_client := c |}.

Definition ListService (c : ptr client) : listService :=
  {| listService_client := c |}.

(** The zero values [var d board] and [list{}] start from. *)
Definition zero_list : list_ :=
  {| list_client := None; list_ID := EmptyString; ListName := EmptyString |}.

Definition zero_board : board :=
  {| board_client := None; board_ID := EmptyString; DescData := JNull;
     Closed := false; IDOrganization := JNull; Pinned := false;
     ShortURL := EmptyString; Desc := EmptyString; BoardName := EmptyString;
     board_URL := EmptyString; Prefs := None; LabelNames := None;
     BoardLists := None |}.

(** Decoding into a structure writes its tagged fields and leaves its
    [client] alone; the lists of a board are allocated by the decoder,
    a JSON null giving a nil pointer. *)
Definition fill_list (dst : list_) (j : list_json) : list_ :=
  {| list_client := list_client dst;
     list_ID := json_id j;
     ListName := json_name j |}.

Definition fill_board (dst : board) (j : board_json) : board :=
  {| board_client := board_client dst;
     board_ID := jb_id j;
     DescData := jb_descData j;
     Closed := jb_closed j;
     IDOrganization := jb_idOrganization j;
     Pinned := jb_pinned j;
     ShortURL := jb_shortUrl j;
     Desc := jb_desc j;
     BoardName := jb_name j;
     board_URL := jb_url j;
     Prefs := jb_prefs j;
     LabelNames := jb_labelNames j;
     BoardLists := option_map (map (option_map (fill_list zero_list))) (jb_lists j) |}.

(** [d.client = c] and [list.client = c]. *)
Definition set_board_client (d : board) (c : ptr client) : board :=
  {| board_client := c;
     board_ID := board_ID d; DescData := DescData d; Closed := Closed d;
     IDOrganization := IDOrganization d; Pinned := Pinned d;
     ShortURL := ShortURL d; Desc := Desc d; BoardName := BoardName d;
     board_URL := board_URL d; Prefs := Prefs d; LabelNames := LabelNames d;
     BoardLists := BoardLists d |}.

Definition set_list_client (l : list_) (c : ptr client) : list_ :=
  {| list_client := c; list_ID := list_ID l; ListName := ListName l |}.

(** [func (b *board) GetID()], [Name()] and their list counterparts. *)
Definition board_GetID (b : board) : string := board_ID b.
Definition board_Name (b : board) : string := BoardName b.
Definition list_Name (l : list_) : string := ListName l.
Definition list_GetID (l : list_) : string := list_ID l.

(** The [restURL] each operation builds, [fmt.Sprintf] with [%s] verbs
    being concatenation. *)
Definition GetBoard_restURL (c : client) (id : string) : string :=
  let restURL := baseURL ++ "/1/boards/" ++ id ++ "?key=" ++ key c in
  if (0 <? String.length (token c))%nat
  then restURL ++ ("&token=" ++ token c)
  else restURL.

Definition Lists_restURL (c : client) (b : board) : string :=
  let restURL := baseURL ++ "/1/boards/" ++ board_ID b ++ "?key=" ++ key c ++ "&lists=all" in
  if (0 <? String.length (token c))%nat
  then restURL ++ ("&token=" ++ token c)
  else restURL.

Definition Rename_restURL (c : client) (l : list_) (newName : string) : string :=
  let restURL := baseURL ++ "/1/lists/" ++ list_ID l ++ "/name?key=" ++ key c
                 ++ "&value=" ++ QueryEscape newName in
  if (0 <? String.length (token c))%nat
  then restURL ++ ("&token=" ++ token c)
  else restURL.

Definition Close_restURL (c : client) (l : list_) : string :=
  let restURL := baseURL ++ "/1/lists/" ++ list_ID l ++ "/name?key=" ++ key c
                 ++ "&value=true" in
  if (0 <? String.length (token c))%nat
  then restURL ++ ("&token=" ++ token c)
  else restURL.

Definition Create_restURL (c : client) (name boardID pos : string) : string :=
  let restURL := baseURL ++ "/1/lists?key=" ++ key c
                 ++ "&name=" ++ QueryEscape name
                 ++ "&idBoard=" ++ QueryEscape boardID in
  let restURL := if (0 <? String.length pos)%nat
                 then restURL ++ ("&pos=" ++ pos)
                 else restURL in
  if (0 <? String.length (token c))%nat
  then restURL ++ ("&token=" ++ token c)
  else restURL.

(** What the two conditional appends add to a [restURL]. *)
Definition token_param (c : client) : string :=
  if (0 <? String.length (token c))%nat then "&token=" ++ token c else EmptyString.

Definition pos_param (pos : string) : string :=
  if (0 <? String.length pos)%nat then "&pos=" ++ pos else EmptyString.

(** What they add is empty or starts a new piece of the query string. *)
Definition starts_piece (S : string) : Prop :=
  S = EmptyString \/ exists S', S = String "&" S'.

(** [resp.StatusCode < 200 || resp.StatusCode > 299]. *)
Definition bad_status (code : Z) : bool :=
  ((code <? 200) || (code >? 299))%Z.

(** The loop of [Lists]: [for i, list := range d.BoardLists
    { list.client = b.client; ls[i] = list }]. *)
Fixpoint Lists_loop (c : ptr client) (src : list (ptr list_)) (i : nat)
    (ls : list (ptr list_)) : M (list (ptr list_)) :=
  match src with
  | [] => ret ls
  | p :: rest =>
      l <- deref p ;;
      match set_index ls i (Some (set_list_client l c)) with
      | None => panic
      | Some ls' => Lists_loop c rest (S i) ls'
      end
  end.

Section Package.

Variable E : Env.

(** [json.NewDecoder(body).Decode(&d)]. *)
Definition Decode_board (body : Body) (dst : board) : board + string :=
  match decode_board E (content body) with
  | inl j => inl (fill_board dst j)
  | inr err => inr err
  end.

Definition Decode_list (body : Body) (dst : list_) : list_ + string :=
  match decode_list E (content body) with
  | inl j => inl (fill_list dst j)
  | inr err => inr err
  end.

Definition GetBoard (b : boardService) (id : string) : M (ptr board * error) :=
  c <- deref (boardService_client b) ;;
  match NewRequest E "GET" (GetBoard_restURL c id) with
  | inr err => ret (None, Some err)
  | inl req =>
      r <- Do E req ;;
      match r with
      | inr err => ret (None, Some err)
      | inl resp =>
          match Decode_board (ResponseBody resp) zero_board with
          | inr err =>
              Close_body (ResponseBody resp) ;;;
              ret (None, Some err)
          | inl d =>
              Close_body (ResponseBody resp) ;;;
              ret (Some (set_board_client d (boardService_client b)), None)
          end
      end
  end.

Definition Lists (b : board) : M (slice (ptr list_) * error) :=
  c <- deref (board_client b) ;;
  match NewRequest E "GET" (Lists_restURL c b) with
  | inr err => ret (None, Some err)
  | inl req =>
      r <- Do E req ;;
      match r with
      | inr err => ret (None, Some err)
      | inl resp =>
          match Decode_board (ResponseBody resp) zero_board with
          | inr err =>
              Close_body (ResponseBody resp) ;;;
              ret (None, Some err)
          | inl d =>
              Close_body (ResponseBody resp) ;;;
              ls <- Lists_loop (board_client b)
                      (match BoardLists d with Some src => src | None => [] end)
                      0 (make None (len (BoardLists d))) ;;
              ret (Some ls, None)
          end
      end
  end.

Definition Rename (l : list_) (newName : string) : M error :=
  c <- deref (list_client l) ;;
  match NewRequest E "PUT" (Rename_restURL c l newName) with
  | inr err => ret (Some err)
  | inl req =>
      r <- Do E req ;;
      match r with
      | inr err => ret (Some err)
      | inl resp =>
          if bad_status (StatusCode resp)
          then ret (Some ("bad response code: " ++ Status resp))
          else ret None
      end
  end.

Definition Close (l : list_) : M error :=
  c <- deref (list_client l) ;;
  match NewRequest E "PUT" (Close_restURL c l) with
  | inr err => ret (Some err)
  | inl req =>
      r <- Do E req ;;
      match r with
      | inr err => ret (Some err)
      | inl resp =>
          if bad_status (StatusCode resp)
          then ret (Some ("bad response code: " ++ Status resp))
          else ret None
      end
  end.

Definition Create (l : listService) (name boardID pos : string)
  : M (ptr list_ * error) :=
  c <- deref (listService_client l) ;;
  match NewRequest E "POST" (Create_restURL c name boardID pos) with
  | inr err => ret (None, Some err)
  | inl req =>
      r <- Do E req ;;
      match r with
      | inr err => ret (None, Some err)
      | inl resp =>
          if bad_status (StatusCode resp)
          then ret (None, Some ("bad response code: " ++ Status resp))
          else
            let ll := {| list_client := listService_client l;
                         list_ID := EmptyString; ListName := EmptyString |} in
            match Decode_list (ResponseBody resp) ll with
            | inr err =>
                Close_body (ResponseBody resp) ;;;
                ret (None, Some err)
            | inl ll' =>
                Close_body (ResponseBody resp) ;;;
                ret (Some ll', None)
            end
      end
  end.

End Package.

(** The value an operation returns in a world, the world it leaves,
    and the requests it added. *)
Definition result_of {A : Type} (m : M A) (w : World) : outcome A := fst (m w).
Definition world_after {A : Type} (m : M A) (w : World) : World := snd (m w).

(** The requests an operation hands to [Do]: what it adds to [sent]. *)
Definition requests_of {A : Type} (m : M A) (w : World) : list Request :=
  skipn (List.length (sent w)) (sent (world_after m w)).

(** ** What the specification asks of [Close]

    "Close sets the [closed] field to [true]": a field update is a PUT
    to [{base}/1/lists/{id}/{field}?key={key}&value={value}], with the
    token appended when there is one. *)
Definition field_update_URL (c : client) (l : list_) (field value : string) : string :=
  let restURL := baseURL ++ "/1/lists/" ++ list_ID l ++ "/" ++ field ++ "?key=" ++ key c
                 ++ "&value=" ++ value in
  if (0 <? String.length (token c))%nat
  then restURL ++ ("&token=" ++ token c)
  else restURL.

(** ** Environments for running the operations *)

(** A URL whose part before the query has a [%] that two hexadecimal
    digits do not follow is refused by [url.Parse] ("invalid URL
    escape"); [simple_parse_url] refuses those and accepts the rest. *)
Fixpoint bad_escape (s : string) : bool :=
  match s with
  | EmptyString => false
  | String c r =>
      if Ascii.eqb c "%" then
        match r with
        | String h (String l r') => negb (ishex h && ishex l) || bad_escape r'
        | _ => true
        end
      else bad_escape r
  end.

Definition simple_parse_url (url : string) : error :=
  if bad_escape (before_query url) then Some "invalid URL escape" else None.

(** A service that answers every request with the same status and body,
    and a decoder that reads [text] as the given board and list, an
    empty body being an unexpected end of input. *)
Definition mock_env (code : Z) (status text : string)
    (b : board_json) (l : list_json) : Env :=
  {| parse_url := simple_parse_url;
     round_trip := fun _ _ => inl (code, status, text);
     decode_board := fun s => if String.eqb s EmptyString then inr "EOF" else inl b;
     decode_list := fun s => if String.eqb s EmptyString then inr "EOF" else inl l |}.

Definition json_board (id name : string) (lists : slice (ptr list_json)) : board_json :=
  {| jb_id := id; jb_descData := JNull; jb_closed := false;
     jb_idOrganization := JNull; jb_pinned := false; jb_shortUrl := EmptyString;
     jb_desc := EmptyString; jb_name := name; jb_url := EmptyString;
     jb_prefs := None; jb_labelNames := None; jb_lists := lists |}.

(** Response bodies for the samples: a JSON text holds double quotes. *)
Definition quoted (s : string) : string :=
  String (ascii_of_nat 34) (s ++ String (ascii_of_nat 34) EmptyString).

Definition body_no_lists : string :=
  "{" ++ quoted "id" ++ ":" ++ quoted "B1" ++ ","
      ++ quoted "name" ++ ":" ++ quoted "Roadmap" ++ "}".

Definition body_empty_lists : string :=
  "{" ++ quoted "id" ++ ":" ++ quoted "B1" ++ "," ++ quoted "lists" ++ ":[]}".

Definition body_list : string :=
  "{" ++ quoted "id" ++ ":" ++ quoted "L1" ++ ","
      ++ quoted "name" ++ ":" ++ quoted "To Do" ++ "}".

Definition json_list (id name : string) : list_json :=
  {| json_id := id; json_name := name |}.

(** ** The three mutating operations, taken together

    [Rename], [Close] and [Create] share their treatment of the
    response; [mutation] names a call of one of them, so that a
    statement about all three is made once. *)
Inductive mutation : Type :=
| CallRename (l : list_) (newName : string)
| CallClose (l : list_)
| CallCreate (s : listService) (name boardID pos : string).

(** The client whose credentials the call uses. *)
Definition mutation_client (m : mutation) : ptr client :=
  match m with
  | CallRename l _ => list_client l
  | CallClose l => list_client l
  | CallCreate s _ _ _ => listService_client s
  end.

(** The request the call builds for a client [c]. *)
Definition mutation_request (c : client) (m : mutation) : Request :=
  match m with
  | CallRename l newName =>
      {| Method := "PUT"; RequestURL := Rename_restURL c l newName |}
  | CallClose l =>
      {| Method := "PUT"; RequestURL := Close_restURL c l |}
  | CallCreate _ name boardID pos =>
      {| Method := "POST"; RequestURL := Create_restURL c name boardID pos |}
  end.

(** The error the call returns ([Create] returns it second). *)
Definition mutation_error (E : Env) (m : mutation) : M error :=
  match m with
  | CallRename l newName => Rename E l newName
  | CallClose l => Close E l
  | CallCreate s name boardID pos =>
      r <- Create E s name boardID pos ;; ret (snd r)
  end.

(** The error [Create] is left with once the status is accepted: the
    decoder's. *)
Definition decode_error (E : Env) (m : mutation) (text : string) : error :=
  match m with
  | CallCreate _ _ _ _ =>
      match decode_list E text with
      | inl _ => None
      | inr err => Some err
      end
  | _ => None
  end.

(** ** Sample values *)

Definition sample_client : client := {| key := "K"; token := EmptyString |}.

Definition sample_list : list_ :=
  {| list_client := Some sample_client; list_ID := "L1"; ListName := "To Do" |}.

Definition sample_board : board :=
  set_board_client (fill_board zero_board (json_board "B1" "Roadmap" None))
                   (Some sample_client).

(** A service that answers [code status] with the body [text], read as
    the board B1 "Roadmap" with the given lists or as the list L1. *)
Definition sample_env (code : Z) (status text : string)
    (lists : slice (ptr list_json)) : Env :=
  mock_env code status text (json_board "B1" "Roadmap" lists) (json_list "L1" "To Do").

(** ** The command (package main)

    [main] reads the flags -k, -t and -b, fetches the board and its
    lists and prints them; what it writes to standard output is the
    value the model returns. *)
Inductive output : Type :=
| Printed (text : string)
| PrettyPrinted (lists : slice (ptr list_)).

Definition newline : string := String (ascii_of_nat 10) EmptyString.

(** [fmt.Println("err: ", err)]: the operands separated by a space,
    then a newline. *)
Definition Println_err (err : string) : output :=
  Printed ("err: " ++ " " ++ err ++ newline).

Definition main (E : Env) (key token boardID : string) : M output :=
  let client := NewClient key token in
  r <- GetBoard E (BoardService client) boardID ;;
  match snd r with
  | Some err => ret (Println_err err)
  | None =>
      board <- deref (fst r) ;;
      r' <- Lists E board ;;
      match snd r' with
      | Some err => ret (Println_err err)
      | None => ret (PrettyPrinted (fst r'))
      end
  end.

(** ** Earlier versions of the package

    The repository keeps earlier states of the file: one whose [Rename]
    does not escape the new name, and one whose [Lists] sets the client
    of the decoded board but not of its lists. *)
Module Earlier.

Definition Rename_restURL (c : client) (l : list_) (newName : string) : string :=
  let restURL := baseURL ++ "/1/lists/" ++ list_ID l ++ "/name?key=" ++ key c
                 ++ "&value=" ++ newName in
  if (0 <? String.length (token c))%nat
  then restURL ++ ("&token=" ++ token c)
  else restURL.

Definition Rename (E : Env) (l : list_) (newName : string) : M error :=
  c <- deref (list_client l) ;;
  match NewRequest E "PUT" (Rename_restURL c l newName) with
  | inr err => ret (Some err)
  | inl req =>
      r <- Do E req ;;
      match r with
      | inr err => ret (Some err)
      | inl resp =>
          if bad_status (StatusCode resp)
          then ret (Some ("bad response code: " ++ Status resp))
          else ret None
      end
  end.

(** The loop [for i, list := range d.BoardLists { ls[i] = list }]. *)
Fixpoint Lists_loop (src : list (ptr list_)) (i : nat) (ls : list (ptr list_))
    : M (list (ptr list_)) :=
  match src with
  | [] => ret ls
  | p :: rest =>
      match set_index ls i p with
      | None => panic
      | Some ls' => Lists_loop rest (S i) ls'
      end
  end.

Definition Lists (E : Env) (b : board) : M (slice (ptr list_) * error) :=
  c <- deref (board_client b) ;;
  match NewRequest E "GET" (Lists_restURL c b) with
  | inr err => ret (None, Some err)
  | inl req =>
      r <- Do E req ;;
      match r with
      | inr err => ret (None, Some err)
      | inl resp =>
          match Decode_board E (ResponseBody resp) zero_board with
          | inr err =>
              Close_body (ResponseBody resp) ;;;
              ret (None, Some err)
          | inl d =>
              Close_body (ResponseBody resp) ;;;
              let d := set_board_client d (board_client b) in
              ls <- Lists_loop
                      (match BoardLists d with Some src => src | None => [] end)
                      0 (make None (len (BoardLists d))) ;;
              ret (Some ls, None)
          end
      end
  end.

End Earlier.

(** * Properties *)

(** ** Go strings *)

Section StringFacts.

Lemma append_nil_r (s : string) : s ++ EmptyString = s.
Proof. induction s as [|c s IH]; simpl; [reflexivity | now rewrite IH]. Qed.

Lemma append_assoc (a b c : string) : (a ++ b) ++ c = a ++ (b ++ c).
Proof. induction a as [|x a IH]; simpl; [reflexivity | now rewrite IH]. Qed.

Lemma append_inv_head (a x y : string) : a ++ x = a ++ y -> x = y.
Proof.
  induction a as [|c a IH]; simpl; intros H; [exact H | ].
  injection H as H. now apply IH.
Qed.

Lemma prefix_append (a b : string) : prefix a (a ++ b) = true.
Proof.
  induction a as [|c a IH]; simpl; [now destruct b | ].
  destruct (ascii_dec c c) as [_|n]; [exact IH | now elim n].
Qed.

Lemma prefix_inv (a s : string) :
  prefix a s = true -> exists b, s = a ++ b.
Proof.
  revert s; induction a as [|c a IH]; intros s H.
  - now exists s.
  - destruct s as [|d s]; simpl in H; [discriminate | ].
    destruct (ascii_dec c d) as [->|]; [ | discriminate].
    destruct (IH _ H) as [b ->]. now exists b.
Qed.

Lemma contains_Substring (sub s : string) :
  contains sub s = true <-> Substring sub s.
Proof.
  split.
  - induction s as [|c s IH]; cbn [contains]; intros H.
    + rewrite orb_false_r in H. apply prefix_inv in H as [b Hb].
      exists EmptyString, b. exact Hb.
    + apply orb_true_iff in H as [H|H].
      * apply prefix_inv in H as [b Hb]. exists EmptyString, b. exact Hb.
      * destruct (IH H) as (p & q & ->). now exists (String c p), q.
  - intros (p & q & ->). induction p as [|c p IH].
    + change (EmptyString ++ sub ++ q) with (sub ++ q).
      destruct (sub ++ q) as [|d r] eqn:Hs; cbn [contains];
        rewrite <- Hs, prefix_append; reflexivity.
    + change (String c p ++ sub ++ q) with (String c (p ++ sub ++ q)).
      cbn [contains]. rewrite IH. apply orb_true_r.
Qed.

Lemma count_char_append (c : ascii) (a b : string) :
  count_char c (a ++ b) = count_char c a + count_char c b.
Proof. induction a as [|d a IH]; simpl; [reflexivity | rewrite IH; lia]. Qed.

Lemma cut_absent (sep : ascii) (a : string) :
  count_char sep a = 0 -> cut sep a = (a, None).
Proof.
  induction a as [|c a IH]; simpl; [reflexivity | ].
  destruct (Ascii.eqb c sep); simpl; intros H; [discriminate | ].
  now rewrite (IH H).
Qed.

Lemma cut_first (sep : ascii) (a b : string) :
  count_char sep a = 0 -> cut sep (a ++ String sep b) = (a, Some b).
Proof.
  induction a as [|c a IH]; simpl.
  - now rewrite Ascii.eqb_refl.
  - destruct (Ascii.eqb c sep); simpl; intros H; [discriminate | ].
    now rewrite (IH H).
Qed.

Lemma fst_cut_append (sep : ascii) (a b : string) :
  count_char sep a = 0 -> fst (cut sep (a ++ b)) = a ++ fst (cut sep b).
Proof.
  induction a as [|c a IH]; simpl; [reflexivity | ].
  destruct (Ascii.eqb c sep); simpl; intros H; [discriminate | ].
  specialize (IH H). destruct (cut sep (a ++ b)) as [x y]. simpl in *.
  now rewrite IH.
Qed.

Lemma split_on_nonempty (sep : ascii) (s : string) : split_on sep s <> [].
Proof.
  destruct s as [|c s]; simpl; [discriminate | ].
  destruct (Ascii.eqb c sep); [discriminate | ].
  destruct (split_on sep s); discriminate.
Qed.

Lemma split_on_absent (sep : ascii) (a : string) :
  count_char sep a = 0 -> split_on sep a = [a].
Proof.
  induction a as [|c a IH]; simpl; [reflexivity | ].
  destruct (Ascii.eqb c sep); simpl; intros H; [discriminate | ].
  now rewrite (IH H).
Qed.

(** Splitting distributes over a separator. *)
Lemma split_on_append (sep : ascii) (a b : string) :
  split_on sep (a ++ String sep b) = (split_on sep a ++ split_on sep b)%list.
Proof.
  induction a as [|c a IH]; simpl.
  - now rewrite Ascii.eqb_refl.
  - destruct (Ascii.eqb c sep); simpl; [now rewrite IH | ].
    rewrite IH. destruct (split_on sep a) as [|h t] eqn:Hs.
    + now elim (split_on_nonempty sep a).
    + reflexivity.
Qed.

(** The first piece of a split is what precedes the first separator. *)
Lemma split_on_head (sep : ascii) (s : string) :
  exists rest, split_on sep s = fst (cut sep s) :: rest.
Proof.
  induction s as [|c s [rest IH]]; simpl.
  - now exists [].
  - destruct (Ascii.eqb c sep); [now eexists | ].
    rewrite IH. destruct (cut sep s). simpl. now eexists.
Qed.

End StringFacts.

(** ** Query escaping *)

Section EscapeFacts.

(** A property of one byte is checked on the 256 bytes. *)
Ltac each_byte c := destruct c as [[] [] [] [] [] [] [] []].

Lemma forallb_string_append (p : ascii -> bool) (a b : string) :
  forallb_string p (a ++ b) = forallb_string p a && forallb_string p b.
Proof.
  induction a as [|c a IH]; simpl; [reflexivity | ].
  now rewrite IH, andb_assoc.
Qed.

Lemma count_char_excluded (p : ascii -> bool) (m : ascii) (s : string) :
  p m = false -> forallb_string p s = true -> count_char m s = 0.
Proof.
  intros Hm. induction s as [|c s IH]; simpl; [reflexivity | ].
  intros H. apply andb_true_iff in H as [Hc Hs].
  destruct (Ascii.eqb_spec c m) as [->|_]; [congruence | ].
  now rewrite (IH Hs).
Qed.

Lemma escape_byte_alphabet (c : ascii) :
  forallb_string escaped_byte_ok (escape_byte c) = true.
Proof. each_byte c; reflexivity. Qed.

(** [QueryEscape] writes unreserved bytes, [%] and [+] only. *)
Lemma QueryEscape_alphabet (s : string) :
  forallb_string escaped_byte_ok (QueryEscape s) = true.
Proof.
  induction s as [|c s IH]; simpl; [reflexivity | ].
  now rewrite forallb_string_append, escape_byte_alphabet, IH.
Qed.

(** No byte outside that alphabet survives escaping. *)
Lemma QueryEscape_excludes (m : ascii) (s : string) :
  escaped_byte_ok m = false -> count_char m (QueryEscape s) = 0.
Proof.
  intros Hm. apply (count_char_excluded escaped_byte_ok); [exact Hm | ].
  apply QueryEscape_alphabet.
Qed.

Lemma plain_excludes (m : ascii) (s : string) :
  shouldEscape m = true -> plain s = true -> count_char m s = 0.
Proof.
  intros Hm. apply (count_char_excluded (fun c => negb (shouldEscape c))).
  now rewrite Hm.
Qed.

Lemma escape_byte_plain (c : ascii) :
  shouldEscape c = false -> escape_byte c = String c EmptyString.
Proof. each_byte c; intros H; try reflexivity; discriminate H. Qed.

Lemma QueryEscape_plain (s : string) : plain s = true -> QueryEscape s = s.
Proof.
  unfold plain. induction s as [|c s IH]; simpl; [reflexivity | ].
  intros H. apply andb_true_iff in H as [Hc Hs].
  apply negb_true_iff in Hc. now rewrite (escape_byte_plain c Hc), (IH Hs).
Qed.

Lemma unescape_escape_byte (c : ascii) (r : string) :
  QueryUnescape (escape_byte c ++ r) = option_map (String c) (QueryUnescape r).
Proof. each_byte c; reflexivity. Qed.

(** What [QueryEscape] writes, [QueryUnescape] reads back. *)
Lemma QueryUnescape_QueryEscape (s : string) :
  QueryUnescape (QueryEscape s) = Some s.
Proof.
  induction s as [|c s IH]; [reflexivity | ].
  cbn [QueryEscape]. now rewrite unescape_escape_byte, IH.
Qed.

Lemma escape_byte_percent (c : ascii) :
  c <> " "%char -> escape_byte c = percent_byte c.
Proof.
  intros H. unfold escape_byte, percent_byte.
  destruct (Ascii.eqb_spec c " ") as [->|_]; [now elim H | reflexivity].
Qed.

(** Away from spaces [QueryEscape] is percent-encoding. *)
Lemma QueryEscape_percent_escape (s : string) :
  count_char " " s = 0 -> QueryEscape s = percent_escape s.
Proof.
  induction s as [|c s IH]; simpl; [reflexivity | ].
  destruct (Ascii.eqb_spec c " ") as [->|Hc]; simpl; intros H; [discriminate | ].
  now rewrite (escape_byte_percent c Hc), (IH H).
Qed.

End EscapeFacts.

(** ** Sample evaluations *)

Example QueryEscape_sample :
  QueryEscape "To Do & Done/2" = "To+Do+%26+Done%2F2".
Proof. reflexivity. Qed.

Example QueryUnescape_sample :
  QueryUnescape "To+Do+%26+Done%2F2" = Some "To Do & Done/2".
Proof. reflexivity. Qed.

(** The scenario of the specification: key K, no token, board B1 named
    Roadmap. *)
Example GetBoard_scenario :
  GetBoard (sample_env 200 "200 OK" body_no_lists None)
           (BoardService (NewClient "K" EmptyString)) "B1" new_world
  = (Returned (Some sample_board, None),
     {| sent := [{| Method := "GET";
                    RequestURL := "https://api.trello.com/1/boards/B1?key=K" |}];
        open_bodies := [] |})
  /\ board_Name sample_board = "Roadmap"
  /\ board_GetID sample_board = "B1".
Proof. repeat split; reflexivity. Qed.

Example Lists_scenario :
  result_of (Lists (sample_env 200 "200 OK" body_empty_lists
                               (Some [Some (json_list "L1" "To Do")]))
                   sample_board) new_world
  = Returned (Some [Some sample_list], None)
  /\ list_Name sample_list = "To Do"
  /\ list_GetID sample_list = "L1".
Proof. repeat split; reflexivity. Qed.

(** A [null] in the [lists] array is a nil pointer, and the loop of
    [Lists] panics on it. *)
Example Lists_null_element :
  result_of (Lists (sample_env 200 "200 OK" body_empty_lists (Some [None]))
                   sample_board) new_world
  = Panicked.
Proof. reflexivity. Qed.

Example query_params_sample :
  query_params "https://h/1/lists?key=K&name=a+b&pos=top#frag"
  = [("key", "K"); ("name", "a+b"); ("pos", "top")].
Proof. reflexivity. Qed.

(** ** Running the operations *)

Section Runs.

Variable E : Env.

Lemma skipn_length_app {A : Type} (a b : list A) :
  skipn (List.length a) (a ++ b) = b.
Proof. induction a as [|x a IH]; simpl; [reflexivity | exact IH]. Qed.

Lemma skipn_length_self {A : Type} (a : list A) :
  skipn (List.length a) a = [].
Proof. induction a as [|x a IH]; simpl; [reflexivity | exact IH]. Qed.

(** Unfolds an operation down to the answers of the environment. *)
Ltac run_op :=
  unfold bind, deref, ret, panic, NewRequest, Do, Close_body,
    Decode_board, Decode_list; simpl.

Lemma Rename_run (c : client) (l : list_) (newName : string) (w : World) :
  list_client l = Some c ->
  Rename E l newName w =
  let req := {| Method := "PUT"; RequestURL := Rename_restURL c l newName |} in
  match parse_url E (Rename_restURL c l newName) with
  | Some err => (Returned (Some err), w)
  | None =>
      match round_trip E (sent w) req with
      | inl (code, status, _) =>
          (Returned (if bad_status code
                     then Some ("bad response code: " ++ status) else None),
           {| sent := sent w ++ [req];
              open_bodies := List.length (sent w) :: open_bodies w |})
      | inr err =>
          (Returned (Some err),
           {| sent := sent w ++ [req]; open_bodies := open_bodies w |})
      end
  end.
Proof.
  intros Hc. unfold Rename. rewrite Hc. run_op.
  destruct (parse_url E _); [reflexivity | ].
  destruct (round_trip E _ _) as [[[code status] text]|err]; simpl;
    [destruct (bad_status code) | ]; reflexivity.
Qed.

Lemma Close_run (c : client) (l : list_) (w : World) :
  list_client l = Some c ->
  Close E l w =
  let req := {| Method := "PUT"; RequestURL := Close_restURL c l |} in
  match parse_url E (Close_restURL c l) with
  | Some err => (Returned (Some err), w)
  | None =>
      match round_trip E (sent w) req with
      | inl (code, status, _) =>
          (Returned (if bad_status code
                     then Some ("bad response code: " ++ status) else None),
           {| sent := sent w ++ [req];
              open_bodies := List.length (sent w) :: open_bodies w |})
      | inr err =>
          (Returned (Some err),
           {| sent := sent w ++ [req]; open_bodies := open_bodies w |})
      end
  end.
Proof.
  intros Hc. unfold Close. rewrite Hc. run_op.
  destruct (parse_url E _); [reflexivity | ].
  destruct (round_trip E _ _) as [[[code status] text]|err]; simpl;
    [destruct (bad_status code) | ]; reflexivity.
Qed.

Lemma Create_run (c : client) (s : listService) (name boardID pos : string)
    (w : World) :
  listService_client s = Some c ->
  Create E s name boardID pos w =
  let req := {| Method := "POST";
                RequestURL := Create_restURL c name boardID pos |} in
  match parse_url E (Create_restURL c name boardID pos) with
  | Some err => (Returned (None, Some err), w)
  | None =>
      match round_trip E (sent w) req with
      | inl (code, status, text) =>
          if bad_status code
          then (Returned (None, Some ("bad response code: " ++ status)),
                {| sent := sent w ++ [req];
                   open_bodies := List.length (sent w) :: open_bodies w |})
          else (Returned
                  match decode_list E text with
                  | inl j => (Some {| list_client := Some c;
                                      list_ID := json_id j;
                                      ListName := json_name j |}, None)
                  | inr err => (None, Some err)
                  end,
                {| sent := sent w ++ [req]; open_bodies := open_bodies w |})
      | inr err =>
          (Returned (None, Some err),
           {| sent := sent w ++ [req]; open_bodies := open_bodies w |})
      end
  end.
Proof.
  intros Hc. unfold Create. rewrite Hc. run_op.
  destruct (parse_url E _); [reflexivity | ].
  destruct (round_trip E _ _) as [[[code status] text]|err]; simpl;
    [ | reflexivity].
  destruct (bad_status code); [reflexivity | ]. simpl.
  destruct (decode_list E text); simpl; now rewrite Nat.eqb_refl.
Qed.

Lemma GetBoard_run (c : client) (b : boardService) (id : string) (w : World) :
  boardService_client b = Some c ->
  GetBoard E b id w =
  let req := {| Method := "GET"; RequestURL := GetBoard_restURL c id |} in
  match parse_url E (GetBoard_restURL c id) with
  | Some err => (Returned (None, Some err), w)
  | None =>
      match round_trip E (sent w) req with
      | inl (_, _, text) =>
          (Returned
             match decode_board E text with
             | inl j => (Some (set_board_client (fill_board zero_board j) (Some c)),
                         None)
             | inr err => (None, Some err)
             end,
           {| sent := sent w ++ [req]; open_bodies := open_bodies w |})
      | inr err =>
          (Returned (None, Some err),
           {| sent := sent w ++ [req]; open_bodies := open_bodies w |})
      end
  end.
Proof.
  intros Hc. unfold GetBoard. rewrite Hc. run_op.
  destruct (parse_url E _); [reflexivity | ].
  destruct (round_trip E _ _) as [[[code status] text]|err]; simpl;
    [ | reflexivity].
  destruct (decode_board E text); simpl; now rewrite Nat.eqb_refl.
Qed.

(** The loop of [Lists] leaves the world alone. *)
Lemma Lists_loop_world (c : ptr client) (src : list (ptr list_)) (i : nat)
    (ls : list (ptr list_)) (w : World) :
  snd (Lists_loop c src i ls w) = w.
Proof.
  revert i ls. induction src as [|p src IH]; intros i ls; simpl; [reflexivity | ].
  unfold bind, deref. destruct p as [l|]; simpl; [ | reflexivity].
  destruct (set_index ls i _); [apply IH | reflexivity].
Qed.

Lemma Lists_run (c : client) (b : board) (w : World) :
  board_client b = Some c ->
  Lists E b w =
  let req := {| Method := "GET"; RequestURL := Lists_restURL c b |} in
  match parse_url E (Lists_restURL c b) with
  | Some err => (Returned (None, Some err), w)
  | None =>
      let w' := {| sent := sent w ++ [req]; open_bodies := open_bodies w |} in
      match round_trip E (sent w) req with
      | inl (_, _, text) =>
          match decode_board E text with
          | inl j =>
              let d := fill_board zero_board j in
              match fst (Lists_loop (Some c)
                           match BoardLists d with Some src => src | None => [] end
                           0 (make None (len (BoardLists d))) w') with
              | Returned ls => (Returned (Some ls, None), w')
              | Panicked => (Panicked, w')
              end
          | inr err => (Returned (None, Some err), w')
          end
      | inr err => (Returned (None, Some err), w')
      end
  end.
Proof.
  intros Hc. unfold Lists. rewrite Hc. run_op.
  destruct (parse_url E _); [reflexivity | ].
  destruct (round_trip E _ _) as [[[code status] text]|err]; simpl;
    [ | reflexivity].
  destruct (decode_board E text) as [j|err]; simpl; rewrite Nat.eqb_refl;
    [ | reflexivity].
  match goal with
  | |- context [Lists_loop ?c ?src ?i ?ls ?w0] =>
      pose proof (Lists_loop_world c src i ls w0) as Hw;
      destruct (Lists_loop c src i ls w0) as [[ls'|] w1]
  end; simpl in Hw; subst; reflexivity.
Qed.

End Runs.

(** ** The log of requests *)

Section SentLog.

Variable E : Env.

Lemma requests_of_extends {A : Type} (m : M A) (w : World) (added : list Request) :
  sent (world_after m w) = (sent w ++ added)%list ->
  requests_of m w = added
  /\ sent (world_after m w) = (sent w ++ requests_of m w)%list.
Proof.
  intros H. unfold requests_of. rewrite H, skipn_length_app. now split.
Qed.

(** Every operation only appends to the log, at most one request. *)
Lemma GetBoard_appends (b : boardService) (id : string) (w : World) :
  exists added, sent (world_after (GetBoard E b id) w) = (sent w ++ added)%list
                /\ List.length added <= 1.
Proof.
  unfold world_after. destruct (boardService_client b) as [c|] eqn:Hc.
  - rewrite (GetBoard_run E c b id w Hc). cbv zeta.
    destruct (parse_url E _); simpl;
      [exists []; rewrite app_nil_r; split; [reflexivity | simpl; lia] | ].
    destruct (round_trip E _ _) as [[[code status] text]|err]; simpl;
      eexists; split; try reflexivity; simpl; lia.
  - unfold GetBoard. rewrite Hc. simpl.
    exists []. rewrite app_nil_r. split; [reflexivity | simpl; lia].
Qed.

Lemma Lists_appends (b : board) (w : World) :
  exists added, sent (world_after (Lists E b) w) = (sent w ++ added)%list
                /\ List.length added <= 1.
Proof.
  unfold world_after. destruct (board_client b) as [c|] eqn:Hc.
  - rewrite (Lists_run E c b w Hc). cbv zeta.
    destruct (parse_url E _); simpl;
      [exists []; rewrite app_nil_r; split; [reflexivity | simpl; lia] | ].
    destruct (round_trip E _ _) as [[[code status] text]|err]; simpl;
      [ | eexists; split; try reflexivity; simpl; lia].
    destruct (decode_board E text); simpl;
      [ | eexists; split; try reflexivity; simpl; lia].
    destruct (fst _); simpl; eexists; split; try reflexivity; simpl; lia.
  - unfold Lists. rewrite Hc. simpl.
    exists []. rewrite app_nil_r. split; [reflexivity | simpl; lia].
Qed.

Lemma mutation_appends (m : mutation) (w : World) :
  exists added, sent (world_after (mutation_error E m) w) = (sent w ++ added)%list
                /\ List.length added <= 1.
Proof.
  unfold world_after.
  destruct (mutation_client m) as [c|] eqn:Hc; destruct m as [l n | l | s n b p];
    simpl in Hc; simpl.
  - rewrite (Rename_run E c l n w Hc). cbv zeta.
    destruct (parse_url E _); simpl;
      [exists []; rewrite app_nil_r; split; [reflexivity | simpl; lia] | ].
    destruct (round_trip E _ _) as [[[code status] text]|err]; simpl;
      eexists; split; try reflexivity; simpl; lia.
  - rewrite (Close_run E c l w Hc). cbv zeta.
    destruct (parse_url E _); simpl;
      [exists []; rewrite app_nil_r; split; [reflexivity | simpl; lia] | ].
    destruct (round_trip E _ _) as [[[code status] text]|err]; simpl;
      eexists; split; try reflexivity; simpl; lia.
  - unfold bind. rewrite (Create_run E c s n b p w Hc). cbv zeta.
    destruct (parse_url E _); simpl;
      [exists []; rewrite app_nil_r; split; [reflexivity | simpl; lia] | ].
    destruct (round_trip E _ _) as [[[code status] text]|err]; simpl;
      [ | eexists; split; try reflexivity; simpl; lia].
    destruct (bad_status code); simpl;
      eexists; split; try reflexivity; simpl; lia.
  - unfold Rename. rewrite Hc. simpl.
    exists []. rewrite app_nil_r. split; [reflexivity | simpl; lia].
  - unfold Close. rewrite Hc. simpl.
    exists []. rewrite app_nil_r. split; [reflexivity | simpl; lia].
  - unfold bind, Create. rewrite Hc. simpl.
    exists []. rewrite app_nil_r. split; [reflexivity | simpl; lia].
Qed.

End SentLog.

(** ** The shape of the request URLs *)

Section URLFacts.

Ltac flatten_app := repeat (rewrite ?append_assoc, ?append_nil_r; simpl).

Lemma GetBoard_restURL_shape (c : client) (id : string) :
  GetBoard_restURL c id
  = (baseURL ++ "/1/boards/" ++ id)
      ++ String "?" (("key=" ++ key c) ++ token_param c).
Proof.
  unfold GetBoard_restURL, token_param.
  destruct (0 <? String.length (token c))%nat; flatten_app; reflexivity.
Qed.

Lemma Lists_restURL_shape (c : client) (b : board) :
  Lists_restURL c b
  = (baseURL ++ "/1/boards/" ++ board_ID b)
      ++ String "?" (("key=" ++ key c)
                       ++ String "&" ("lists=all" ++ token_param c)).
Proof.
  unfold Lists_restURL, token_param.
  destruct (0 <? String.length (token c))%nat; flatten_app; reflexivity.
Qed.

Lemma Rename_restURL_shape (c : client) (l : list_) (newName : string) :
  Rename_restURL c l newName
  = (baseURL ++ "/1/lists/" ++ list_ID l ++ "/name")
      ++ String "?" (("key=" ++ key c)
                       ++ String "&" (("value=" ++ QueryEscape newName)
                                        ++ token_param c)).
Proof.
  unfold Rename_restURL, token_param.
  destruct (0 <? String.length (token c))%nat; flatten_app; reflexivity.
Qed.

Lemma Close_restURL_shape (c : client) (l : list_) :
  Close_restURL c l
  = (baseURL ++ "/1/lists/" ++ list_ID l ++ "/name")
      ++ String "?" (("key=" ++ key c)
                       ++ String "&" ("value=true" ++ token_param c)).
Proof.
  unfold Close_restURL, token_param.
  destruct (0 <? String.length (token c))%nat; flatten_app; reflexivity.
Qed.

Lemma Create_restURL_shape (c : client) (name boardID pos : string) :
  Create_restURL c name boardID pos
  = (baseURL ++ "/1/lists")
      ++ String "?" (("key=" ++ key c)
           ++ String "&" (("name=" ++ QueryEscape name)
                ++ String "&" (("idBoard=" ++ QueryEscape boardID)
                                 ++ pos_param pos ++ token_param c))).
Proof.
  unfold Create_restURL, token_param, pos_param.
  destruct (0 <? String.length pos)%nat;
    destruct (0 <? String.length (token c))%nat; flatten_app; reflexivity.
Qed.

Lemma field_update_URL_shape (c : client) (l : list_) (field value : string) :
  field_update_URL c l field value
  = (baseURL ++ "/1/lists/" ++ list_ID l ++ "/")
      ++ field ++ "?key=" ++ key c ++ "&value=" ++ value ++ token_param c.
Proof.
  unfold field_update_URL, token_param.
  destruct (0 <? String.length (token c))%nat; flatten_app; reflexivity.
Qed.

Lemma token_param_empty (c : client) :
  token c = EmptyString -> token_param c = EmptyString.
Proof. unfold token_param. now intros ->. Qed.

Lemma token_param_nonempty (c : client) :
  token c <> EmptyString -> token_param c = String "&" ("token=" ++ token c).
Proof.
  unfold token_param. destruct (token c); [now intros H; elim H | reflexivity].
Qed.

Lemma pos_param_nonempty (pos : string) :
  pos <> EmptyString -> pos_param pos = String "&" ("pos=" ++ pos).
Proof.
  unfold pos_param. destruct pos; [now intros H; elim H | reflexivity].
Qed.

(** Where a server finds the query string of [U?Q...]: [U] holds
    neither [?] nor [#], and [Q] no [#]. *)
Lemma raw_query_split (U Q S : string) :
  count_char "#" U = 0 -> count_char "?" U = 0 -> count_char "#" Q = 0 ->
  before_query (U ++ String "?" (Q ++ S)) = U
  /\ raw_query (U ++ String "?" (Q ++ S)) = Q ++ fst (cut "#" S).
Proof.
  intros HU1 HU2 HQ. unfold before_query, raw_query.
  rewrite (fst_cut_append "#" U _ HU1).
  assert (Hq : fst (cut "#" (String "?" (Q ++ S)))
               = String "?" (Q ++ fst (cut "#" S))).
  { simpl. rewrite <- (fst_cut_append "#" Q S HQ).
    now destruct (cut "#" (Q ++ S)). }
  rewrite Hq, (cut_first "?" U _ HU2). split; reflexivity.
Qed.

Lemma query_param_names_pieces (url : string) :
  query_param_names url
  = map (fun piece => fst (parse_param piece)) (split_on "&" (raw_query url)).
Proof. unfold query_param_names, query_params. apply map_map. Qed.

(** A piece [name=...] that follows a [&] is a parameter [name]. *)
Lemma split_on_appended (Q name v : string) :
  count_char "&" name = 0 ->
  exists v' rest,
    split_on "&" (Q ++ String "&" (name ++ String "=" v))
    = (split_on "&" Q ++ (name ++ String "=" v')%string :: rest)%list.
Proof.
  intros Hn. rewrite split_on_append.
  destruct (split_on_head "&" (name ++ String "=" v)) as [rest ->].
  rewrite (fst_cut_append "&" name _ Hn). simpl.
  destruct (cut "&" v) as [v' ?]. now exists v', rest.
Qed.

Lemma parse_param_name (name v : string) :
  count_char "=" name = 0 -> parse_param (name ++ String "=" v) = (name, v).
Proof.
  intros Hn. unfold parse_param. now rewrite (cut_first "=" name v Hn).
Qed.

End URLFacts.

(** ** Response bodies *)

Section Bodies.

Variable E : Env.

(** [GetBoard] closes the body it opened, whatever the decoder says. *)
Lemma GetBoard_closes_body (b : boardService) (id : string) (w : World) :
  open_bodies (world_after (GetBoard E b id) w) = open_bodies w.
Proof.
  unfold world_after. destruct (boardService_client b) as [c|] eqn:Hc.
  - rewrite (GetBoard_run E c b id w Hc). cbv zeta.
    destruct (parse_url E _); [reflexivity | ].
    destruct (round_trip E _ _) as [[[code status] text]|err]; reflexivity.
  - unfold GetBoard. now rewrite Hc.
Qed.

(** So does [Lists], also when its loop panics. *)
Lemma Lists_closes_body (b : board) (w : World) :
  open_bodies (world_after (Lists E b) w) = open_bodies w.
Proof.
  unfold world_after. destruct (board_client b) as [c|] eqn:Hc.
  - rewrite (Lists_run E c b w Hc). cbv zeta.
    destruct (parse_url E _); [reflexivity | ].
    destruct (round_trip E _ _) as [[[code status] text]|err]; [ | reflexivity].
    destruct (decode_board E text); [ | reflexivity].
    destruct (fst _); reflexivity.
  - unfold Lists. now rewrite Hc.
Qed.

(** [Create] closes the body once it has accepted the status. *)
Lemma Create_closes_body_2xx (c : client) (s : listService)
    (name boardID pos : string) (w : World) (code : Z) (status text : string) :
  listService_client s = Some c ->
  round_trip E (sent w)
    {| Method := "POST"; RequestURL := Create_restURL c name boardID pos |}
  = inl (code, status, text) ->
  bad_status code = false ->
  open_bodies (world_after (Create E s name boardID pos) w) = open_bodies w.
Proof.
  intros Hc Hr Hs. unfold world_after.
  rewrite (Create_run E c s name boardID pos w Hc). cbv zeta.
  destruct (parse_url E _); [reflexivity | ]. now rewrite Hr, Hs.
Qed.

(** [Rename] and [Close] never close a body: the one a response
    brings is still open when they return. *)
Lemma Rename_open_bodies (c : client) (l : list_) (newName : string) (w : World) :
  list_client l = Some c ->
  open_bodies (world_after (Rename E l newName) w)
  = match parse_url E (Rename_restURL c l newName),
          round_trip E (sent w)
            {| Method := "PUT"; RequestURL := Rename_restURL c l newName |} with
    | None, inl _ => List.length (sent w) :: open_bodies w
    | _, _ => open_bodies w
    end.
Proof.
  intros Hc. unfold world_after. rewrite (Rename_run E c l newName w Hc). cbv zeta.
  destruct (parse_url E _); [reflexivity | ].
  destruct (round_trip E _ _) as [[[code status] text]|err]; reflexivity.
Qed.

Lemma Close_open_bodies (c : client) (l : list_) (w : World) :
  list_client l = Some c ->
  open_bodies (world_after (Close E l) w)
  = match parse_url E (Close_restURL c l),
          round_trip E (sent w)
            {| Method := "PUT"; RequestURL := Close_restURL c l |} with
    | None, inl _ => List.length (sent w) :: open_bodies w
    | _, _ => open_bodies w
    end.
Proof.
  intros Hc. unfold world_after. rewrite (Close_run E c l w Hc). cbv zeta.
  destruct (parse_url E _); [reflexivity | ].
  destruct (round_trip E _ _) as [[[code status] text]|err]; reflexivity.
Qed.

End Bodies.

(** C2.  The specification asks that every operation closes the body
    before it returns.  [GetBoard] and [Lists] do; [Rename] and [Close]
    never do, and [Create] does not when it rejects the status: after
    a [Rename] answered 204, a [Close] answered 200 and a [Create]
    answered 404 the body numbered 0 is still open, while after a
    [GetBoard] no body is. *)
Theorem bodies_left_open :
  open_bodies (world_after
     (Rename (sample_env 204 "204 No Content" EmptyString None) sample_list "Done")
     new_world) = [0]
  /\ open_bodies (world_after
       (Close (sample_env 200 "200 OK" body_list None) sample_list) new_world) = [0]
  /\ open_bodies (world_after
       (Create (sample_env 404 "404 Not Found" EmptyString None)
               (ListService (NewClient "K" EmptyString)) "Done" "B1" EmptyString)
       new_world) = [0]
  /\ open_bodies (world_after
       (GetBoard (sample_env 200 "200 OK" body_no_lists None)
                 (BoardService (NewClient "K" EmptyString)) "B1")
       new_world) = [].
Proof. repeat split; reflexivity. Qed.

(** ** [Close] and [Rename] *)

(** C1.  [Rename] does what the specification says, [Close] not: on the
    list L1 of the client with key K, [Rename "New Name"] sends one PUT
    that sets [name] to the escaped name, and [Close] sends one PUT to
    the same [name] endpoint with the value [true], where the text
    wants the field [closed]. *)
Theorem Close_sends_name_update :
  requests_of (Rename (sample_env 200 "200 OK" body_list None) sample_list "New Name")
              new_world
  = [{| Method := "PUT";
        RequestURL := "https://api.trello.com/1/lists/L1/name?key=K&value=New+Name" |}]
  /\ requests_of (Close (sample_env 200 "200 OK" body_list None) sample_list) new_world
     = [{| Method := "PUT";
           RequestURL := "https://api.trello.com/1/lists/L1/name?key=K&value=true" |}]
  /\ field_update_URL sample_client sample_list "closed" "true"
     = "https://api.trello.com/1/lists/L1/closed?key=K&value=true"
  /\ result_of (Close (sample_env 200 "200 OK" body_list None) sample_list) new_world
     = Returned None.
Proof. repeat split; reflexivity. Qed.

(** ** [Lists] *)

(** C5.  When the board that [Lists] fetches again decodes to a board
    without lists, its [lists] array being empty or absent, [Lists]
    returns an allocated, empty collection and a nil error. *)
Theorem Lists_of_empty_board (E : Env) (c : client) (b : board) (w : World)
    (code : Z) (status text : string) (j : board_json) :
  board_client b = Some c ->
  parse_url E (Lists_restURL c b) = None ->
  round_trip E (sent w) {| Method := "GET"; RequestURL := Lists_restURL c b |}
  = inl (code, status, text) ->
  decode_board E text = inl j ->
  jb_lists j = None \/ jb_lists j = Some [] ->
  result_of (Lists E b) w = Returned (Some [], None).
Proof.
  intros Hc Hu Hr Hd Hl. unfold result_of.
  rewrite (Lists_run E c b w Hc). cbv zeta. rewrite Hu, Hr, Hd.
  destruct Hl as [Hl|Hl]; simpl; rewrite Hl; reflexivity.
Qed.

Lemma Lists_of_empty_board_witness :
  result_of (Lists (sample_env 200 "200 OK" body_empty_lists (Some [])) sample_board)
            new_world
  = Returned (Some [], None)
  /\ result_of (Lists (sample_env 200 "200 OK" body_no_lists None) sample_board) new_world
     = Returned (Some [], None).
Proof.
  split.
  - apply (Lists_of_empty_board _ sample_client sample_board new_world
             200 "200 OK" body_empty_lists
             (json_board "B1" "Roadmap" (Some [])));
      try reflexivity. right; reflexivity.
  - apply (Lists_of_empty_board _ sample_client sample_board new_world
             200 "200 OK" body_no_lists (json_board "B1" "Roadmap" None));
      try reflexivity. left; reflexivity.
Defined.

(** ** The status of the response *)

(** C3, as the code has it.  When [Rename], [Close] or [Create]
    receives a response, it has issued exactly one request.  A status
    outside 200-299 makes it return the error "bad response code: "
    followed by the status text.  A status within 200-299 makes
    [Rename] and [Close] return a nil error, and leaves [Create] with
    the verdict of the decoder: a nil error when the body decodes as a
    list, the decoding error otherwise. *)
Theorem status_decides_mutation (E : Env) (c : client) (m : mutation) (w : World)
    (code : Z) (status text : string) :
  mutation_client m = Some c ->
  parse_url E (RequestURL (mutation_request c m)) = None ->
  round_trip E (sent w) (mutation_request c m) = inl (code, status, text) ->
  requests_of (mutation_error E m) w = [mutation_request c m]
  /\ ((200 <= code <= 299)%Z ->
      result_of (mutation_error E m) w = Returned (decode_error E m text))
  /\ ((code < 200 \/ 299 < code)%Z ->
      result_of (mutation_error E m) w
      = Returned (Some ("bad response code: " ++ status))
      /\ Substring status ("bad response code: " ++ status)).
Proof.
  intros Hc Hu Hr.
  assert (Hgood : (200 <= code <= 299)%Z -> bad_status code = false).
  { unfold bad_status. intros H. apply orb_false_iff. split; lia. }
  assert (Hbad : (code < 200 \/ 299 < code)%Z -> bad_status code = true).
  { unfold bad_status. intros H. apply orb_true_iff. lia. }
  assert (Hsub : Substring status ("bad response code: " ++ status)).
  { exists "bad response code: ", EmptyString. now rewrite append_nil_r. }
  unfold requests_of, result_of, world_after.
  destruct m as [l n | l | s n b p]; simpl in Hc, Hu, Hr; simpl.
  - rewrite (Rename_run E c l n w Hc). cbv zeta. rewrite Hu, Hr. simpl.
    rewrite skipn_length_app. split; [reflexivity | ].
    split; intros H; [now rewrite (Hgood H) | now rewrite (Hbad H)].
  - rewrite (Close_run E c l w Hc). cbv zeta. rewrite Hu, Hr. simpl.
    rewrite skipn_length_app. split; [reflexivity | ].
    split; intros H; [now rewrite (Hgood H) | now rewrite (Hbad H)].
  - unfold bind. rewrite (Create_run E c s n b p w Hc). cbv zeta.
    rewrite Hu, Hr. destruct (bad_status code) eqn:Hs; simpl;
      rewrite skipn_length_app; (split; [reflexivity | ]).
    + split; intros H; [discriminate (Hgood H) | now split].
    + split; intros H; [ | discriminate (Hbad H)].
      now destruct (decode_list E text).
Qed.

Lemma status_decides_mutation_witness :
  (requests_of (Rename (sample_env 204 "204 No Content" EmptyString None)
                       sample_list "Done") new_world
   = [{| Method := "PUT"; RequestURL := Rename_restURL sample_client sample_list "Done" |}]
   /\ result_of (Rename (sample_env 204 "204 No Content" EmptyString None)
                        sample_list "Done") new_world
      = Returned None)
  /\ result_of (Close (sample_env 404 "404 Not Found" EmptyString None)
                      sample_list) new_world
     = Returned (Some "bad response code: 404 Not Found").
Proof.
  split.
  - destruct (status_decides_mutation
                (sample_env 204 "204 No Content" EmptyString None)
                sample_client (CallRename sample_list "Done") new_world
                204 "204 No Content" EmptyString eq_refl eq_refl eq_refl)
      as (Hreq & Hgood & _).
    split; [exact Hreq | ]. apply Hgood. lia.
  - destruct (status_decides_mutation
                (sample_env 404 "404 Not Found" EmptyString None)
                sample_client (CallClose sample_list) new_world
                404 "404 Not Found" EmptyString eq_refl eq_refl eq_refl)
      as (_ & _ & Hbad).
    apply Hbad. lia.
Defined.

(** C3, as the specification has it, fails for [Create]: answered 200 with an
    empty body, it returns the decoder's error although the status is
    within 200-299. *)
Lemma Create_2xx_decode_failure :
  round_trip (sample_env 200 "200 OK" EmptyString None) (sent new_world)
    {| Method := "POST";
       RequestURL := Create_restURL sample_client "Done" "B1" EmptyString |}
  = inl (200%Z, "200 OK", EmptyString)
  /\ (200 <= 200 <= 299)%Z
  /\ result_of (Create (sample_env 200 "200 OK" EmptyString None)
                       (ListService (NewClient "K" EmptyString))
                       "Done" "B1" EmptyString) new_world
     = Returned (None, Some "EOF").
Proof. repeat split; try reflexivity; lia. Qed.

(** ** The client reference *)

Section ClientReference.

Lemma set_index_middle {A : Type} (done rest : list A) (x v : A) :
  set_index (done ++ x :: rest)%list (List.length done) v
  = Some (done ++ v :: rest)%list.
Proof.
  induction done as [|y done IH]; simpl; [reflexivity | now rewrite IH].
Qed.



End ClientReference.



(** ** The parameters of the query string *)

Section QueryFacts.

Lemma fst_cut_cons (sep c : ascii) (s : string) :
  Ascii.eqb c sep = false ->
  fst (cut sep (String c s)) = String c (fst (cut sep s)).
Proof. intros H. simpl. rewrite H. now destruct (cut sep s). Qed.

Lemma token_param_starts_piece (c : client) : starts_piece (token_param c).
Proof.
  unfold token_param. destruct (token c); [now left | right; now eexists].
Qed.

Lemma pos_token_param_starts_piece (pos : string) (c : client) :
  starts_piece (pos_param pos ++ token_param c).
Proof.
  unfold pos_param. destruct pos; simpl.
  - apply token_param_starts_piece.
  - right. now eexists.
Qed.

(** The pieces of [Q] stay pieces of the query string [Q ++ S]. *)
Lemma pieces_prefix (U Q S : string) :
  count_char "#" U = 0 -> count_char "?" U = 0 -> count_char "#" Q = 0 ->
  starts_piece S ->
  before_query (U ++ String "?" (Q ++ S)) = U
  /\ exists rest,
       split_on "&" (raw_query (U ++ String "?" (Q ++ S)))
       = (split_on "&" Q ++ rest)%list.
Proof.
  intros HU1 HU2 HQ HS.
  destruct (raw_query_split U Q S HU1 HU2 HQ) as [Hb Hq].
  split; [exact Hb | ]. rewrite Hq. destruct HS as [->|[S' ->]].
  - exists []. simpl. now rewrite append_nil_r, app_nil_r.
  - rewrite (fst_cut_cons "#" "&" S' eq_refl), split_on_append. now eexists.
Qed.

(** A parameter appended after [Q] is a parameter of the query string. *)
Lemma appended_param (U Q name v S : string) :
  count_char "#" U = 0 -> count_char "?" U = 0 -> count_char "#" Q = 0 ->
  count_char "#" name = 0 -> count_char "&" name = 0 -> count_char "=" name = 0 ->
  In name (query_param_names
             (U ++ String "?" (Q ++ String "&" (name ++ String "=" (v ++ S))))).
Proof.
  intros HU1 HU2 HQ Hn1 Hn2 Hn3.
  destruct (raw_query_split U Q (String "&" (name ++ String "=" (v ++ S)))
              HU1 HU2 HQ) as [_ Hq].
  rewrite query_param_names_pieces, Hq.
  rewrite (fst_cut_cons "#" "&" _ eq_refl), (fst_cut_append "#" name _ Hn1).
  rewrite (fst_cut_cons "#" "=" _ eq_refl).
  destruct (split_on_appended Q name (fst (cut "#" (v ++ S))) Hn2)
    as (v' & rest & ->).
  rewrite map_app. apply in_or_app. right. left.
  now rewrite (parse_param_name name v' Hn3).
Qed.

Lemma escaped_sep_free (s : string) :
  count_char "#" (QueryEscape s) = 0 /\ count_char "?" (QueryEscape s) = 0
  /\ count_char "&" (QueryEscape s) = 0 /\ count_char "=" (QueryEscape s) = 0.
Proof. repeat split; apply QueryEscape_excludes; reflexivity. Qed.

(** The parameters the package writes. *)
Lemma parse_param_key (v : string) : parse_param ("key=" ++ v) = ("key", v).
Proof. exact (parse_param_name "key" v eq_refl). Qed.

Lemma parse_param_token (v : string) : parse_param ("token=" ++ v) = ("token", v).
Proof. exact (parse_param_name "token" v eq_refl). Qed.

Lemma parse_param_value (v : string) : parse_param ("value=" ++ v) = ("value", v).
Proof. exact (parse_param_name "value" v eq_refl). Qed.

Lemma parse_param_name_ (v : string) : parse_param ("name=" ++ v) = ("name", v).
Proof. exact (parse_param_name "name" v eq_refl). Qed.

Lemma parse_param_idBoard (v : string) :
  parse_param ("idBoard=" ++ v) = ("idBoard", v).
Proof. exact (parse_param_name "idBoard" v eq_refl). Qed.

Lemma count_char_fst_cut (m sep : ascii) (s : string) :
  count_char m s = 0 -> count_char m (fst (cut sep s)) = 0.
Proof.
  induction s as [|c s IH]; simpl; [reflexivity | ].
  destruct (Ascii.eqb c sep); [reflexivity | ].
  destruct (Ascii.eqb c m) eqn:Hc; simpl; intros H; [discriminate H | ].
  specialize (IH H). destruct (cut sep s). simpl in *.
  now rewrite Hc.
Qed.

(** What is left of the token parameter once the fragment is cut
    off: nothing, or one piece [token=...]. *)
Lemma token_param_cut (c : client) :
  count_char "&" (token c) = 0 ->
  (token c = EmptyString /\ fst (cut "#" (token_param c)) = EmptyString)
  \/ exists v, fst (cut "#" (token_param c)) = String "&" ("token=" ++ v)
               /\ count_char "&" v = 0.
Proof.
  intros Ht. unfold token_param. destruct (token c) as [|d r] eqn:Htok.
  - left. now split.
  - right. exists (fst (cut "#" (String d r))).
    cbn [String.length Nat.ltb Nat.leb].
    change ("&token=" ++ String d r) with (String "&" ("token=" ++ String d r)).
    rewrite (fst_cut_cons "#" "&" _ eq_refl), (fst_cut_append "#" "token=" _ eq_refl).
    split; [reflexivity | now apply count_char_fst_cut].
Qed.

End QueryFacts.

(** ** [GetBoard] *)

Lemma GetBoard_query (c : client) (id : string) :
  count_char "?" id = 0 -> count_char "#" id = 0 ->
  count_char "&" (key c) = 0 -> count_char "#" (key c) = 0 ->
  before_query (GetBoard_restURL c id) = baseURL ++ "/1/boards/" ++ id
  /\ In ("key", key c) (query_params (GetBoard_restURL c id))
  /\ (In "token" (query_param_names (GetBoard_restURL c id))
      <-> token c <> EmptyString).
Proof.
  intros Hid2 Hid1 Hk3 Hk1.
  assert (HU1 : count_char "#" (baseURL ++ "/1/boards/" ++ id) = 0).
  { rewrite !count_char_append, Hid1. reflexivity. }
  assert (HU2 : count_char "?" (baseURL ++ "/1/boards/" ++ id) = 0).
  { rewrite !count_char_append, Hid2. reflexivity. }
  assert (HQ1 : count_char "#" ("key=" ++ key c) = 0).
  { rewrite count_char_append, Hk1. reflexivity. }
  assert (HQ3 : count_char "&" ("key=" ++ key c) = 0).
  { rewrite count_char_append, Hk3. reflexivity. }
  rewrite GetBoard_restURL_shape.
  destruct (pieces_prefix _ _ _ HU1 HU2 HQ1 (token_param_starts_piece c))
    as (Hb & rest & Hpieces).
  split; [exact Hb | ]. split.
  - unfold query_params. rewrite Hpieces, (split_on_absent "&" _ HQ3).
    left. apply parse_param_key.
  - split.
    + intros Hin Ht.
      rewrite query_param_names_pieces in Hin.
      rewrite (token_param_empty c Ht) in Hin.
      destruct (raw_query_split _ _ EmptyString HU1 HU2 HQ1) as [_ Hq].
      rewrite Hq in Hin. cbn [cut fst] in Hin.
      rewrite append_nil_r, (split_on_absent "&" _ HQ3) in Hin.
      destruct Hin as [Hin|[]].
      rewrite parse_param_key in Hin. discriminate Hin.
    + intros Ht. rewrite (token_param_nonempty c Ht).
      rewrite <- (append_nil_r (token c)).
      now apply (appended_param _ _ "token" (token c) EmptyString).
Qed.

(** C4, as the code has it.  [GetBoard] issues one GET request when
    [http.NewRequest] accepts the URL and none when it refuses it.  The
    URL is the base URL, [/1/boards/], the id, [?key=], the key and,
    when the token is not empty, [&token=] and the token.  When the id
    holds neither [?] nor [#] and the key neither [&] nor [#], the id
    is the last segment of the part before the query string, the query
    string has the parameter [key] with the key as its value, and it
    has a parameter [token] if and only if the token is not empty. *)
Theorem GetBoard_request (E : Env) (k t id : string) (w : World) :
  let c := {| key := k; token := t |} in
  let url := GetBoard_restURL c id in
  requests_of (GetBoard E (BoardService (NewClient k t)) id) w
  = match parse_url E url with
    | None => [{| Method := "GET"; RequestURL := url |}]
    | Some _ => []
    end
  /\ url = baseURL ++ "/1/boards/" ++ id ++ "?key=" ++ k
           ++ (if String.eqb t EmptyString then EmptyString else "&token=" ++ t)
  /\ (count_char "?" id = 0 -> count_char "#" id = 0 ->
      count_char "&" k = 0 -> count_char "#" k = 0 ->
      before_query url = baseURL ++ "/1/boards/" ++ id
      /\ In ("key", k) (query_params url)
      /\ (In "token" (query_param_names url) <-> t <> EmptyString)).
Proof.
  intros c url. split; [ | split].
  - unfold requests_of, world_after.
    rewrite (GetBoard_run E c (BoardService (NewClient k t)) id w eq_refl).
    cbv zeta. fold url. destruct (parse_url E url); simpl.
    + apply skipn_length_self.
    + destruct (round_trip E _ _) as [[[code status] text]|err]; simpl;
        apply skipn_length_app.
  - subst url. unfold GetBoard_restURL. simpl. destruct t; simpl.
    + now rewrite append_nil_r.
    + now rewrite !append_assoc.
  - exact (GetBoard_query c id).
Qed.

Lemma GetBoard_request_witness :
  before_query (GetBoard_restURL {| key := "K"; token := "T" |} "B1")
  = baseURL ++ "/1/boards/" ++ "B1"
  /\ In ("key", "K") (query_params (GetBoard_restURL {| key := "K"; token := "T" |} "B1"))
  /\ (In "token" (query_param_names (GetBoard_restURL {| key := "K"; token := "T" |} "B1"))
      <-> "T" <> EmptyString).
Proof.
  destruct (GetBoard_request (sample_env 200 "200 OK" body_no_lists None)
              "K" "T" "B1" new_world) as (_ & _ & H).
  exact (H eq_refl eq_refl eq_refl eq_refl).
Defined.

(** C4, as the specification has it, fails in three ways.  The id is not in
    the query string: for the board B1 and the key K the query string
    is [key=K].  The token parameter does not follow the token: a key
    with [&] can bring one although the token is empty, and an id with
    [#] hides the one that was appended.  And no request at all is
    issued for an id that [http.NewRequest] refuses, such as one with
    a broken escape. *)
Lemma GetBoard_id_outside_query :
  (raw_query (GetBoard_restURL sample_client "B1") = "key=K"
   /\ contains "B1" (raw_query (GetBoard_restURL sample_client "B1")) = false)
  /\ In "token" (query_param_names
                   (GetBoard_restURL {| key := "K&token=x"; token := EmptyString |}
                                     "B1"))
  /\ ~ In "token" (query_param_names
                     (GetBoard_restURL {| key := "K"; token := "T" |} "B1#top"))
  /\ requests_of (GetBoard (sample_env 200 "200 OK" body_no_lists None)
                           (BoardService (NewClient "K" EmptyString)) "%zz")
                 new_world = [].
Proof.
  split; [split; reflexivity | ]. split; [simpl; auto | ].
  split; [ | reflexivity]. simpl. intros [H|[]]. discriminate H.
Qed.

(** ** [Create] and [pos] *)

(** C7, as the code has it.  For a client whose key holds neither [&]
    nor [#] and whose token holds no [&], the query string of the URL
    that [Create] builds has a parameter [pos] if and only if [pos] is
    not empty. *)
Theorem Create_pos_parameter (c : client) (name boardID pos : string) :
  count_char "&" (key c) = 0 -> count_char "#" (key c) = 0 ->
  count_char "&" (token c) = 0 ->
  In "pos" (query_param_names (Create_restURL c name boardID pos))
  <-> pos <> EmptyString.
Proof.
  intros Hk3 Hk1 Ht3.
  destruct (escaped_sep_free name) as (Hn1 & _ & Hn3 & _).
  destruct (escaped_sep_free boardID) as (Hb1 & _ & Hb3 & _).
  assert (HU1 : count_char "#" (baseURL ++ "/1/lists") = 0) by reflexivity.
  assert (HU2 : count_char "?" (baseURL ++ "/1/lists") = 0) by reflexivity.
  set (Q := ("key=" ++ key c)
              ++ String "&" (("name=" ++ QueryEscape name)
                   ++ String "&" ("idBoard=" ++ QueryEscape boardID))).
  assert (HQ1 : count_char "#" Q = 0).
  { unfold Q. rewrite !count_char_append. cbn [count_char].
    rewrite !count_char_append. cbn [count_char].
    rewrite !count_char_append, Hk1, Hn1, Hb1. reflexivity. }
  assert (Hshape : forall S,
             ("key=" ++ key c)
               ++ String "&" (("name=" ++ QueryEscape name)
                    ++ String "&" (("idBoard=" ++ QueryEscape boardID) ++ S))
             = Q ++ S).
  { intros S. unfold Q.
    repeat (progress (rewrite ?append_assoc; simpl)). reflexivity. }
  assert (HQs : split_on "&" Q
                = ["key=" ++ key c; "name=" ++ QueryEscape name;
                   "idBoard=" ++ QueryEscape boardID]).
  { unfold Q. rewrite !split_on_append.
    rewrite !split_on_absent; [reflexivity | | | ];
      rewrite count_char_append; simpl; assumption. }
  rewrite Create_restURL_shape, Hshape. split.
  - intros Hin Hp. subst pos.
    change (pos_param EmptyString ++ token_param c) with (token_param c) in Hin.
    destruct (raw_query_split _ _ (token_param c) HU1 HU2 HQ1) as [_ Hq].
    rewrite query_param_names_pieces, Hq in Hin.
    destruct (token_param_cut c Ht3) as [[_ Hcut]|(v & Hcut & Hv)];
      rewrite Hcut in Hin.
    + rewrite append_nil_r, HQs in Hin. cbn [map] in Hin.
      rewrite parse_param_key, parse_param_name_, parse_param_idBoard in Hin.
      simpl in Hin. intuition discriminate.
    + rewrite split_on_append, HQs in Hin.
      rewrite (split_on_absent "&" ("token=" ++ v)) in Hin
        by (rewrite count_char_append, Hv; reflexivity).
      cbn [map app] in Hin.
      rewrite parse_param_key, parse_param_name_, parse_param_idBoard,
        parse_param_token in Hin.
      simpl in Hin. intuition discriminate.
  - intros Hp. rewrite (pos_param_nonempty pos Hp).
    change (String "&" ("pos=" ++ pos) ++ token_param c)
      with (String "&" ("pos" ++ String "=" (pos ++ token_param c))).
    now apply appended_param.
Qed.

Lemma Create_pos_parameter_witness :
  (In "pos" (query_param_names
               (Create_restURL {| key := "K"; token := "T" |} "To Do" "B1" "top"))
   <-> "top" <> EmptyString)
  /\ (In "pos" (query_param_names
                  (Create_restURL {| key := "K"; token := "T" |} "To Do" "B1"
                                  EmptyString))
      <-> EmptyString <> EmptyString).
Proof.
  split.
  - exact (Create_pos_parameter {| key := "K"; token := "T" |} "To Do" "B1" "top"
             eq_refl eq_refl eq_refl).
  - exact (Create_pos_parameter {| key := "K"; token := "T" |} "To Do" "B1"
             EmptyString eq_refl eq_refl eq_refl).
Defined.

(** C7, as the specification has it, fails for keys and tokens that hold [&]
    or [#]: with the key [K&pos=1], or the token [T&pos=1], and an
    empty [pos] the query string has a parameter [pos]; with the key
    [K#] and the position [top] it has none. *)
Lemma Create_pos_from_key :
  ~ (In "pos" (query_param_names
                 (Create_restURL {| key := "K&pos=1"; token := EmptyString |}
                                 "Done" "B1" EmptyString))
     <-> EmptyString <> EmptyString)
  /\ ~ (In "pos" (query_param_names
                    (Create_restURL {| key := "K"; token := "T&pos=1" |}
                                    "Done" "B1" EmptyString))
        <-> EmptyString <> EmptyString)
  /\ ~ (In "pos" (query_param_names
                    (Create_restURL {| key := "K#"; token := EmptyString |}
                                    "Done" "B1" "top"))
        <-> "top" <> EmptyString).
Proof.
  split; [ | split].
  - intros [H _]. apply H; [ | reflexivity]. simpl. auto.
  - intros [H _]. apply H; [ | reflexivity]. simpl. auto 6.
  - intros [_ H]. assert (Hin := H ltac:(discriminate)).
    simpl in Hin. destruct Hin as [Hin|[]]. discriminate Hin.
Qed.

(** ** Escaped names *)

Section EscapedNames.

Lemma QueryEscape_append (a b : string) :
  QueryEscape (a ++ b) = QueryEscape a ++ QueryEscape b.
Proof.
  induction a as [|x a IH]; simpl; [reflexivity | ].
  now rewrite IH, append_assoc.
Qed.

Lemma Rename_value_param (c : client) (l : list_) (newName : string) :
  count_char "?" (list_ID l) = 0 -> count_char "#" (list_ID l) = 0 ->
  count_char "&" (key c) = 0 -> count_char "#" (key c) = 0 ->
  In ("value", QueryEscape newName) (query_params (Rename_restURL c l newName)).
Proof.
  intros Hid2 Hid1 Hk3 Hk1.
  destruct (escaped_sep_free newName) as (Hn1 & _ & Hn3 & _).
  set (U := baseURL ++ "/1/lists/" ++ list_ID l ++ "/name").
  set (Q := ("key=" ++ key c) ++ String "&" ("value=" ++ QueryEscape newName)).
  assert (HU1 : count_char "#" U = 0).
  { unfold U. rewrite !count_char_append, Hid1. reflexivity. }
  assert (HU2 : count_char "?" U = 0).
  { unfold U. rewrite !count_char_append, Hid2. reflexivity. }
  assert (HQ1 : count_char "#" Q = 0).
  { unfold Q. rewrite !count_char_append. cbn [count_char].
    rewrite !count_char_append, Hk1, Hn1. reflexivity. }
  assert (Hshape : Rename_restURL c l newName
                   = U ++ String "?" (Q ++ token_param c)).
  { rewrite Rename_restURL_shape. unfold U, Q.
    repeat (progress (rewrite ?append_assoc; simpl)). reflexivity. }
  destruct (pieces_prefix U Q _ HU1 HU2 HQ1 (token_param_starts_piece c))
    as (_ & rest & Hpieces).
  unfold query_params. rewrite Hshape, Hpieces. unfold Q.
  rewrite split_on_append, !split_on_absent
    by (rewrite count_char_append; simpl; assumption).
  cbn [map app]. right. left. apply parse_param_value.
Qed.

Lemma Create_name_params (c : client) (name boardID pos : string) :
  count_char "&" (key c) = 0 -> count_char "#" (key c) = 0 ->
  In ("name", QueryEscape name) (query_params (Create_restURL c name boardID pos))
  /\ In ("idBoard", QueryEscape boardID)
        (query_params (Create_restURL c name boardID pos)).
Proof.
  intros Hk3 Hk1.
  destruct (escaped_sep_free name) as (Hn1 & _ & Hn3 & _).
  destruct (escaped_sep_free boardID) as (Hb1 & _ & Hb3 & _).
  set (Q := ("key=" ++ key c)
              ++ String "&" (("name=" ++ QueryEscape name)
                   ++ String "&" ("idBoard=" ++ QueryEscape boardID))).
  assert (HQ1 : count_char "#" Q = 0).
  { unfold Q. rewrite !count_char_append. cbn [count_char].
    rewrite !count_char_append. cbn [count_char].
    rewrite !count_char_append, Hk1, Hn1, Hb1. reflexivity. }
  assert (Hshape : Create_restURL c name boardID pos
                   = (baseURL ++ "/1/lists")
                       ++ String "?" (Q ++ pos_param pos ++ token_param c)).
  { rewrite Create_restURL_shape. unfold Q.
    repeat (progress (rewrite ?append_assoc; simpl)). reflexivity. }
  destruct (pieces_prefix (baseURL ++ "/1/lists") Q _ eq_refl eq_refl HQ1
              (pos_token_param_starts_piece pos c)) as (_ & rest & Hpieces).
  unfold query_params. rewrite Hshape, Hpieces. unfold Q.
  rewrite !split_on_append, !split_on_absent
    by (rewrite count_char_append; simpl; assumption).
  cbn [map app]. split.
  - right. left. apply parse_param_name_.
  - right. right. left. apply parse_param_idBoard.
Qed.

End EscapedNames.

(** C6, as the code has it.  The URL of [Rename] carries
    [&value=] followed by the escaped new name, and the URL of [Create]
    carries [&name=] and [&idBoard=] followed by the escaped name and
    board id.  The escaping is that of [url.QueryEscape]: a space is
    written [+]; away from spaces it is percent-encoding, so that [&]
    is written [%26]; the escaped text holds unreserved bytes, [%] and
    [+] only, hence no space and no [&]; and [url.QueryUnescape] gives
    the name back.  When the list id holds neither [?] nor [#] and the
    key neither [&] nor [#], the server finds the escaped texts as the
    values of the parameters [value], [name] and [idBoard]. *)
Theorem names_are_query_escaped (c : client) (l : list_)
    (newName name boardID pos : string) :
  Substring ("&value=" ++ QueryEscape newName) (Rename_restURL c l newName)
  /\ Substring ("&name=" ++ QueryEscape name ++ "&idBoard=" ++ QueryEscape boardID)
               (Create_restURL c name boardID pos)
  /\ (forall a b : string,
        QueryEscape (a ++ String " " b) = QueryEscape a ++ String "+" (QueryEscape b))
  /\ (forall s : string,
        (count_char " " s = 0 -> QueryEscape s = percent_escape s)
        /\ forallb_string escaped_byte_ok (QueryEscape s) = true
        /\ count_char " " (QueryEscape s) = 0
        /\ count_char "&" (QueryEscape s) = 0
        /\ QueryUnescape (QueryEscape s) = Some s)
  /\ (count_char "?" (list_ID l) = 0 -> count_char "#" (list_ID l) = 0 ->
      count_char "&" (key c) = 0 -> count_char "#" (key c) = 0 ->
      In ("value", QueryEscape newName) (query_params (Rename_restURL c l newName)))
  /\ (count_char "&" (key c) = 0 -> count_char "#" (key c) = 0 ->
      In ("name", QueryEscape name) (query_params (Create_restURL c name boardID pos))
      /\ In ("idBoard", QueryEscape boardID)
            (query_params (Create_restURL c name boardID pos))).
Proof.
  split; [ | split; [ | split; [ | split; [ | split]]]].
  - rewrite Rename_restURL_shape.
    exists ((baseURL ++ "/1/lists/" ++ list_ID l ++ "/name") ++ "?key=" ++ key c),
      (token_param c).
    repeat (progress (rewrite ?append_assoc; simpl)). reflexivity.
  - rewrite Create_restURL_shape.
    exists ((baseURL ++ "/1/lists") ++ "?key=" ++ key c),
      (pos_param pos ++ token_param c).
    repeat (progress (rewrite ?append_assoc; simpl)). reflexivity.
  - intros a b. now rewrite QueryEscape_append.
  - intros s. split; [apply QueryEscape_percent_escape | ].
    split; [apply QueryEscape_alphabet | ].
    split; [now apply QueryEscape_excludes | ].
    split; [now apply QueryEscape_excludes | apply QueryUnescape_QueryEscape].
  - apply Rename_value_param.
  - apply Create_name_params.
Qed.

Lemma names_are_query_escaped_witness :
  In ("value", QueryEscape "To Do & Done")
     (query_params (Rename_restURL sample_client sample_list "To Do & Done"))
  /\ In ("name", QueryEscape "To Do & Done")
        (query_params (Create_restURL sample_client "To Do & Done" "B 1" "top"))
  /\ QueryEscape "Done&Dusted" = percent_escape "Done&Dusted".
Proof.
  destruct (names_are_query_escaped sample_client sample_list
              "To Do & Done" "To Do & Done" "B 1" "top")
    as (_ & _ & _ & Hesc & HRename & HCreate).
  destruct (Hesc "Done&Dusted") as (Hpercent & _).
  destruct (HCreate eq_refl eq_refl) as (Hname & _).
  split; [exact (HRename eq_refl eq_refl eq_refl eq_refl) | ].
  split; [exact Hname | exact (Hpercent eq_refl)].
Defined.

(** C6, as the specification has it, fails for a space: [Rename "To Do"] sends
    [value=To+Do], where percent-encoding writes [To%20Do], and so does
    [Create]. *)
Lemma space_is_not_percent_escaped :
  requests_of (Rename (sample_env 200 "200 OK" body_list None) sample_list "To Do")
              new_world
  = [{| Method := "PUT";
        RequestURL := "https://api.trello.com/1/lists/L1/name?key=K&value=To+Do" |}]
  /\ percent_escape "To Do" = "To%20Do"
  /\ contains (percent_escape "To Do")
              (Rename_restURL sample_client sample_list "To Do") = false
  /\ Create_restURL sample_client "To Do" "B1" EmptyString
     = "https://api.trello.com/1/lists?key=K&name=To+Do&idBoard=B1"
  /\ contains (percent_escape "To Do")
              (Create_restURL sample_client "To Do" "B1" EmptyString) = false.
Proof. repeat split; reflexivity. Qed.

(** ** Values written as they are *)

Section Structure.

(** The part before the query string ends at the first [?] or [#]. *)
Lemma before_query_stops (U r : string) (m : ascii) :
  m = "?"%char \/ m = "#"%char ->
  count_char "?" U = 0 -> count_char "#" U = 0 ->
  before_query (U ++ String m r) = U.
Proof.
  intros [-> | ->] H1 H2; unfold before_query.
  - rewrite (fst_cut_append "#" U _ H2), (fst_cut_cons "#" "?" r eq_refl).
    now rewrite (cut_first "?" U _ H1).
  - rewrite (cut_first "#" U r H2). cbn [fst]. now rewrite (cut_absent "?" U H1).
Qed.

Lemma append_last_differs (a b : string) (x y : ascii) :
  x <> y -> a ++ String x EmptyString <> b ++ String y EmptyString.
Proof.
  intros Hxy. revert b. induction a as [|c a IH]; intros [|d b] H; simpl in H.
  - injection H as H. now elim Hxy.
  - injection H as _ H. destruct b; discriminate H.
  - injection H as _ H. destruct a; discriminate H.
  - injection H as _ H. now apply (IH b).
Qed.



(** The parameters of [Rename] and [Create], for a key that starts no
    piece of its own: what follows the escaped values does not depend
    on them. *)
Lemma Rename_params (c : client) (l : list_) :
  count_char "?" (list_ID l) = 0 -> count_char "#" (list_ID l) = 0 ->
  count_char "&" (key c) = 0 -> count_char "#" (key c) = 0 ->
  exists rest, forall n,
    query_params (Rename_restURL c l n)
    = ("key", key c) :: ("value", QueryEscape n) :: rest.
Proof.
  intros Hid2 Hid1 Hk3 Hk1.
  set (U := baseURL ++ "/1/lists/" ++ list_ID l ++ "/name").
  assert (HU1 : count_char "#" U = 0).
  { unfold U. rewrite !count_char_append, Hid1. reflexivity. }
  assert (HU2 : count_char "?" U = 0).
  { unfold U. rewrite !count_char_append, Hid2. reflexivity. }
  assert (Hpieces : forall n T,
             map parse_param
                 (split_on "&" ((("key=" ++ key c)
                                   ++ String "&" ("value=" ++ QueryEscape n)) ++ T))
             = map parse_param
                   (split_on "&" ("key=" ++ key c)
                    ++ split_on "&" (("value=" ++ QueryEscape n) ++ T))%list).
  { intros n T. now rewrite append_assoc, <- split_on_append. }
  assert (Hq : forall n,
             raw_query (Rename_restURL c l n)
             = (("key=" ++ key c) ++ String "&" ("value=" ++ QueryEscape n))
                 ++ fst (cut "#" (token_param c))).
  { intros n. destruct (escaped_sep_free n) as (Hn1 & _).
    assert (Hshape : Rename_restURL c l n
                     = U ++ String "?"
                          ((("key=" ++ key c)
                              ++ String "&" ("value=" ++ QueryEscape n))
                             ++ token_param c)).
    { rewrite Rename_restURL_shape. unfold U.
      repeat (progress (rewrite ?append_assoc; simpl)). reflexivity. }
    rewrite Hshape. apply raw_query_split; auto.
    rewrite !count_char_append. cbn [count_char].
    rewrite !count_char_append, Hk1, Hn1. reflexivity. }
  assert (Hkey : split_on "&" ("key=" ++ key c) = ["key=" ++ key c]).
  { apply split_on_absent. rewrite count_char_append, Hk3. reflexivity. }
  destruct (token_param_starts_piece c) as [HT | [T' HT]]; rewrite HT in Hq.
  - exists []. intros n. destruct (escaped_sep_free n) as (_ & _ & Hn3 & _).
    unfold query_params. rewrite Hq, Hpieces, Hkey. cbn [cut fst].
    rewrite append_nil_r, split_on_absent
      by (rewrite count_char_append, Hn3; reflexivity).
    cbn [map app]. now rewrite parse_param_key, parse_param_value.
  - exists (map parse_param (split_on "&" (fst (cut "#" T')))).
    intros n. destruct (escaped_sep_free n) as (_ & _ & Hn3 & _).
    unfold query_params. rewrite Hq, Hpieces, Hkey.
    rewrite (fst_cut_cons "#" "&" T' eq_refl), split_on_append, split_on_absent
      by (rewrite count_char_append, Hn3; reflexivity).
    cbn [map app]. now rewrite parse_param_key, parse_param_value.
Qed.






End Structure.




(** ** [Close] is [Rename "true"] *)

(** C10, as the code has it.  [Close] is [Rename "true"]: on every
    list and in every world the two calls do the same thing, because
    they build the same PUT request.  When the id of the list holds
    neither [?] nor [#], the path of that request is
    [/1/lists/{id}/name], which is the [closed] endpoint of no list,
    and for a key without [&] and [#] its parameter [value] is
    [true]: the request sets the field [name]. *)
Theorem Close_is_Rename_true (E : Env) (l : list_) (w : World) :
  Close E l w = Rename E l "true" w
  /\ forall c : client,
       Close_restURL c l = Rename_restURL c l "true"
       /\ mutation_request c (CallClose l) = mutation_request c (CallRename l "true")
       /\ Close_restURL c l = field_update_URL c l "name" "true"
       /\ Close_restURL c l <> field_update_URL c l "closed" "true"
       /\ (count_char "?" (list_ID l) = 0 -> count_char "#" (list_ID l) = 0 ->
           before_query (Close_restURL c l)
           = baseURL ++ "/1/lists/" ++ list_ID l ++ "/name"
           /\ (forall id' : string,
                 before_query (Close_restURL c l)
                 <> baseURL ++ "/1/lists/" ++ id' ++ "/closed")
           /\ (count_char "&" (key c) = 0 -> count_char "#" (key c) = 0 ->
               In ("value", "true") (query_params (Close_restURL c l)))).
Proof.
  split; [reflexivity | ]. intros c.
  split; [reflexivity | ]. split; [reflexivity | ]. split; [reflexivity | ]. split.
  - rewrite Close_restURL_shape, field_update_URL_shape, !append_assoc.
    intros H. do 3 apply append_inv_head in H. discriminate H.
  - intros Hid2 Hid1.
    assert (Hpath : before_query (Close_restURL c l)
                    = baseURL ++ "/1/lists/" ++ list_ID l ++ "/name").
    { rewrite Close_restURL_shape. apply before_query_stops; [now left | | ].
      - rewrite !count_char_append, Hid2. reflexivity.
      - rewrite !count_char_append, Hid1. reflexivity. }
    split; [exact Hpath | ]. split.
    + intros id'. rewrite Hpath. intros H. do 2 apply append_inv_head in H.
      change "/name" with ("/nam" ++ String "e" EmptyString) in H.
      change "/closed" with ("/close" ++ String "d" EmptyString) in H.
      rewrite <- !append_assoc in H.
      now apply append_last_differs in H.
    + intros Hk3 Hk1.
      destruct (Rename_params c l Hid2 Hid1 Hk3 Hk1) as (rest & Hparams).
      change (Close_restURL c l) with (Rename_restURL c l "true").
      rewrite (Hparams "true"). right. now left.
Qed.

Lemma Close_is_Rename_true_witness :
  before_query (Close_restURL sample_client sample_list)
  = baseURL ++ "/1/lists/" ++ list_ID sample_list ++ "/name"
  /\ In ("value", "true") (query_params (Close_restURL sample_client sample_list)).
Proof.
  destruct (Close_is_Rename_true (sample_env 200 "200 OK" body_list None)
              sample_list new_world) as (_ & H).
  destruct (H sample_client) as (_ & _ & _ & _ & Hname).
  destruct (Hname eq_refl eq_refl) as (Hpath & _ & Hvalue).
  split; [exact Hpath | exact (Hvalue eq_refl eq_refl)].
Defined.

(** C10, as the specification has it, fails for a list whose id
    brings its own path and query: with the id
    [L1/closed?key=K&value=true#] the request of [Close] reads as the
    update of the field [closed] of the list L1, what follows [#]
    being a fragment. *)
Lemma Close_reads_as_closed_update :
  let l := {| list_client := Some sample_client;
              list_ID := "L1/closed?key=K&value=true#"; ListName := "To Do" |} in
  requests_of (Close (sample_env 200 "200 OK" body_list None) l) new_world
  = [{| Method := "PUT"; RequestURL := Close_restURL sample_client l |}]
  /\ Close_restURL sample_client l
     = "https://api.trello.com/1/lists/L1/closed?key=K&value=true#/name?key=K&value=true"
  /\ before_query (Close_restURL sample_client l)
     = "https://api.trello.com/1/lists/L1/closed"
  /\ query_params (Close_restURL sample_client l) = [("key", "K"); ("value", "true")]
  /\ before_query (Close_restURL sample_client l)
     = before_query (field_update_URL sample_client sample_list "closed" "true")
  /\ query_params (Close_restURL sample_client l)
     = query_params (field_update_URL sample_client sample_list "closed" "true").
Proof. repeat split; reflexivity. Qed.

(** * Further properties of the package *)

(** ** Values and errors *)

(** X1.  [GetBoard], [Lists] and [Create] return a value or an error,
    never both and never neither: the value is nil exactly when the
    error is not. *)
Theorem value_xor_error (E : Env) (w : World) :
  (forall b id r,
     result_of (GetBoard E b id) w = Returned r -> (fst r = None <-> snd r <> None))
  /\ (forall b r,
        result_of (Lists E b) w = Returned r -> (fst r = None <-> snd r <> None))
  /\ (forall s name boardID pos r,
        result_of (Create E s name boardID pos) w = Returned r ->
        (fst r = None <-> snd r <> None)).
Proof.
  assert (Herr : forall (A : Type) (e : string),
             (@None A = None <-> Some e <> None)).
  { intros A e. split; [discriminate | reflexivity]. }
  assert (Hval : forall (A : Type) (a : A),
             (Some a = None <-> @None string <> None)).
  { intros A a. split; [discriminate | intros H; now elim H]. }
  unfold result_of. split; [ | split].
  - intros b id r. destruct (boardService_client b) as [c|] eqn:Hc.
    + rewrite (GetBoard_run E c b id w Hc). cbv zeta.
      destruct (parse_url E _); [intros H; injection H as <-; apply Herr | ].
      destruct (round_trip E _ _) as [[[code status] text]|err];
        [ | intros H; injection H as <-; apply Herr].
      destruct (decode_board E text); intros H; injection H as <-;
        [apply Hval | apply Herr].
    + unfold GetBoard. rewrite Hc. discriminate.
  - intros b r. destruct (board_client b) as [c|] eqn:Hc.
    + rewrite (Lists_run E c b w Hc). cbv zeta.
      destruct (parse_url E _); [intros H; injection H as <-; apply Herr | ].
      destruct (round_trip E _ _) as [[[code status] text]|err];
        [ | intros H; injection H as <-; apply Herr].
      destruct (decode_board E text);
        [ | intros H; injection H as <-; apply Herr].
      match goal with
      | |- context [Lists_loop ?p ?src ?i ?ls ?w0] =>
          destruct (Lists_loop p src i ls w0) as [[ls'|] w1]
      end; cbn [fst]; [ | discriminate].
      intros H; injection H as <-; apply Hval.
    + unfold Lists. rewrite Hc. discriminate.
  - intros s name boardID pos r. destruct (listService_client s) as [c|] eqn:Hc.
    + rewrite (Create_run E c s name boardID pos w Hc). cbv zeta.
      destruct (parse_url E _); [intros H; injection H as <-; apply Herr | ].
      destruct (round_trip E _ _) as [[[code status] text]|err];
        [ | intros H; injection H as <-; apply Herr].
      destruct (bad_status code); [intros H; injection H as <-; apply Herr | ].
      destruct (decode_list E text); intros H; injection H as <-;
        [apply Hval | apply Herr].
    + unfold Create. rewrite Hc. discriminate.
Qed.

Lemma value_xor_error_witness :
  fst (@None list_, Some "bad response code: 404 Not Found") = None
  <-> snd (@None list_, Some "bad response code: 404 Not Found") <> None.
Proof.
  destruct (value_xor_error (sample_env 404 "404 Not Found" EmptyString None)
              new_world) as (_ & _ & HCreate).
  exact (HCreate (ListService (NewClient "K" EmptyString)) "Done" "B1" EmptyString
           (None, Some "bad response code: 404 Not Found") eq_refl).
Defined.

(** ** What [GetBoard] and [Lists] return *)

Section Fetch.

Variable E : Env.

(** The loop of [Lists] on a source without nil pointers. *)
Lemma Lists_loop_all (c : ptr client) (items : list list_) :
  forall (done : list (ptr list_)) (w : World),
    Lists_loop c (map Some items) (List.length done)
      (done ++ repeat None (List.length items))%list w
    = (Returned (done ++ map (fun l => Some (set_list_client l c)) items)%list, w).
Proof.
  induction items as [|l items IH]; intros done w; simpl.
  - now rewrite app_nil_r.
  - unfold bind, deref. simpl. rewrite set_index_middle.
    specialize (IH (done ++ [Some (set_list_client l c)])%list w).
    rewrite <- !app_assoc, length_app, Nat.add_1_r in IH. exact IH.
Qed.

(** The loop panics on the first nil pointer. *)
Lemma Lists_loop_nil (c : ptr client) (src : list (ptr list_)) :
  In None src ->
  forall (done : list (ptr list_)) (w : World),
    Lists_loop c src (List.length done)
      (done ++ repeat None (List.length src))%list w = (Panicked, w).
Proof.
  induction src as [|p src IH]; intros Hin done w; [now elim Hin | ].
  simpl. unfold bind, deref. destruct p as [l|]; simpl; [ | reflexivity].
  rewrite set_index_middle.
  destruct Hin as [Hin|Hin]; [discriminate Hin | ].
  specialize (IH Hin (done ++ [Some (set_list_client l c)])%list w).
  rewrite <- !app_assoc, length_app, Nat.add_1_r in IH. exact IH.
Qed.

Lemma all_some_or_nil {A : Type} (src : list (ptr A)) :
  In None src \/ exists items, src = map Some items.
Proof.
  induction src as [|p src [IH|[items ->]]].
  - right. now exists [].
  - left. now right.
  - destruct p as [a|]; [right; now exists (a :: items) | left; now left].
Qed.

Lemma map_option_map_Some {A B : Type} (f : A -> B) (items : list A) :
  map (option_map f) (map Some items) = map Some (map f items).
Proof. now rewrite !map_map. Qed.

Lemma fill_board_lists (j : board_json) :
  match BoardLists (fill_board zero_board j) with Some src => src | None => [] end
  = map (option_map (fill_list zero_list))
        match jb_lists j with Some src => src | None => [] end
  /\ len (BoardLists (fill_board zero_board j)) = len (jb_lists j).
Proof.
  simpl. destruct (jb_lists j); simpl; [ | now split].
  split; [reflexivity | apply length_map].
Qed.

End Fetch.

(** X2.  [GetBoard] does not look at the status of the response: for
    every status code, a body that decodes gives a board and a nil
    error.  The board has the decoded id, name and other fields,
    holds the client of the service, and its embedded lists are the
    decoded ones with no client set. *)
Theorem GetBoard_round_trip (E : Env) (k t id : string) (w : World)
    (code : Z) (status text : string) (j : board_json) :
  let c := {| key := k; token := t |} in
  parse_url E (GetBoard_restURL c id) = None ->
  round_trip E (sent w) {| Method := "GET"; RequestURL := GetBoard_restURL c id |}
  = inl (code, status, text) ->
  decode_board E text = inl j ->
  exists d,
    result_of (GetBoard E (BoardService (NewClient k t)) id) w
    = Returned (Some d, None)
    /\ board_GetID d = jb_id j /\ board_Name d = jb_name j
    /\ Desc d = jb_desc j /\ Closed d = jb_closed j /\ Pinned d = jb_pinned j
    /\ ShortURL d = jb_shortUrl j /\ board_URL d = jb_url j
    /\ DescData d = jb_descData j /\ IDOrganization d = jb_idOrganization j
    /\ Prefs d = jb_prefs j /\ LabelNames d = jb_labelNames j
    /\ board_client d = Some c
    /\ BoardLists d
       = option_map
           (map (option_map
                   (fun l => {| list_client := None; list_ID := json_id l;
                                ListName := json_name l |})))
           (jb_lists j).
Proof.
  intros c Hu Hr Hd.
  exists (set_board_client (fill_board zero_board j) (Some c)).
  unfold result_of.
  rewrite (GetBoard_run E c (BoardService (NewClient k t)) id w eq_refl).
  cbv zeta. rewrite Hu, Hr, Hd. repeat split.
Qed.

Lemma GetBoard_round_trip_witness :
  exists d,
    result_of (GetBoard (sample_env 404 "404 Not Found" body_no_lists None)
                        (BoardService (NewClient "K" "T")) "B1") new_world
    = Returned (Some d, None)
    /\ board_GetID d = "B1" /\ board_Name d = "Roadmap".
Proof.
  destruct (GetBoard_round_trip (sample_env 404 "404 Not Found" body_no_lists None)
              "K" "T" "B1" new_world 404 "404 Not Found" body_no_lists
              (json_board "B1" "Roadmap" None) eq_refl eq_refl eq_refl)
    as (d & Hres & Hid & Hname & _).
  exists d. split; [exact Hres | split; [exact Hid | exact Hname]].
Defined.

(** X3.  When the body that [Lists] receives decodes to a board whose
    lists are all present, [Lists] returns them in the order of the
    document, as many as there are, each with its decoded id and name
    and with the client of the board, whatever the status code. *)
Theorem Lists_round_trip (E : Env) (c : client) (b : board) (w : World)
    (code : Z) (status text : string) (j : board_json) (items : list list_json) :
  board_client b = Some c ->
  parse_url E (Lists_restURL c b) = None ->
  round_trip E (sent w) {| Method := "GET"; RequestURL := Lists_restURL c b |}
  = inl (code, status, text) ->
  decode_board E text = inl j ->
  jb_lists j = Some (map Some items) ->
  result_of (Lists E b) w
  = Returned
      (Some (map (fun l => Some {| list_client := Some c; list_ID := json_id l;
                                   ListName := json_name l |}) items),
       None).
Proof.
  intros Hc Hu Hr Hd Hl. unfold result_of.
  rewrite (Lists_run E c b w Hc). cbv zeta. rewrite Hu, Hr, Hd.
  destruct (fill_board_lists j) as [Hsrc Hlen]. rewrite Hsrc, Hlen, Hl.
  cbn [len]. rewrite map_option_map_Some, length_map.
  rewrite <- (length_map (fill_list zero_list) items).
  unfold make.
  rewrite (Lists_loop_all (Some c) (map (fill_list zero_list) items) [] _).
  cbn [fst app]. now rewrite map_map.
Qed.

Lemma Lists_round_trip_witness :
  result_of (Lists (sample_env 200 "200 OK" body_empty_lists
                      (Some (map Some [json_list "L1" "To Do"; json_list "L2" "Done"])))
                   sample_board) new_world
  = Returned
      (Some (map (fun l => Some {| list_client := Some sample_client;
                                   list_ID := json_id l; ListName := json_name l |})
                 [json_list "L1" "To Do"; json_list "L2" "Done"]),
       None).
Proof.
  exact (Lists_round_trip
           (sample_env 200 "200 OK" body_empty_lists
              (Some (map Some [json_list "L1" "To Do"; json_list "L2" "Done"])))
           sample_client sample_board new_world 200 "200 OK" body_empty_lists
           (json_board "B1" "Roadmap"
              (Some (map Some [json_list "L1" "To Do"; json_list "L2" "Done"])))
           [json_list "L1" "To Do"; json_list "L2" "Done"]
           eq_refl eq_refl eq_refl eq_refl eq_refl).
Defined.

(** X4.  Once the body has decoded, [Lists] panics exactly when the
    [lists] array holds a null: the assignment [list.client = b.client]
    goes through a nil pointer.  The request has been sent and the
    body closed by then. *)
Theorem Lists_panics_on_null (E : Env) (c : client) (b : board) (w : World)
    (code : Z) (status text : string) (j : board_json) :
  board_client b = Some c ->
  parse_url E (Lists_restURL c b) = None ->
  round_trip E (sent w) {| Method := "GET"; RequestURL := Lists_restURL c b |}
  = inl (code, status, text) ->
  decode_board E text = inl j ->
  (result_of (Lists E b) w = Panicked
   <-> exists src, jb_lists j = Some src /\ In None src)
  /\ requests_of (Lists E b) w
     = [{| Method := "GET"; RequestURL := Lists_restURL c b |}]
  /\ open_bodies (world_after (Lists E b) w) = open_bodies w.
Proof.
  intros Hc Hu Hr Hd. unfold result_of, requests_of, world_after.
  rewrite (Lists_run E c b w Hc). cbv zeta. rewrite Hu, Hr, Hd.
  destruct (fill_board_lists j) as [Hsrc Hlen]. rewrite Hsrc, Hlen.
  destruct (jb_lists j) as [src|]; cbn [len]; unfold make.
  - destruct (all_some_or_nil src) as [Hnil|[items ->]].
    + assert (Hin : In None (map (option_map (fill_list zero_list)) src)).
      { apply in_map_iff. exists None. now split. }
      pose proof (Lists_loop_nil (Some c) _ Hin []) as Hloop.
      cbn [app] in Hloop. change (List.length (@nil (ptr list_))) with 0 in Hloop.
      rewrite length_map in Hloop. rewrite Hloop. cbn [fst snd sent open_bodies].
      rewrite skipn_length_app. split; [ | now split]. split; [ | reflexivity].
      intros _. now exists src.
    + pose proof (Lists_loop_all (Some c) (map (fill_list zero_list) items) [])
        as Hloop.
      cbn [app] in Hloop. change (List.length (@nil (ptr list_))) with 0 in Hloop.
      rewrite length_map in Hloop.
      rewrite map_option_map_Some, length_map, Hloop.
      cbn [fst snd sent open_bodies]. rewrite skipn_length_app.
      split; [ | now split]. split; [discriminate | ].
      intros (s & Hs & Hin). injection Hs as <-.
      apply in_map_iff in Hin as (x & Hx & _). discriminate Hx.
  - simpl. rewrite skipn_length_app. split; [ | now split].
    split; [discriminate | ]. intros (s & Hs & _). discriminate Hs.
Qed.

Lemma Lists_panics_on_null_witness :
  result_of (Lists (sample_env 200 "200 OK" body_empty_lists
                      (Some [Some (json_list "L1" "To Do"); None]))
                   sample_board) new_world
  = Panicked.
Proof.
  destruct (Lists_panics_on_null
              (sample_env 200 "200 OK" body_empty_lists
                 (Some [Some (json_list "L1" "To Do"); None]))
              sample_client sample_board new_world 200 "200 OK" body_empty_lists
              (json_board "B1" "Roadmap" (Some [Some (json_list "L1" "To Do"); None]))
              eq_refl eq_refl eq_refl eq_refl) as ((_ & Hpanic) & _).
  apply Hpanic. eexists. split; [reflexivity | right; now left].
Defined.

(** X5.  When the id of the receiver holds neither [?] nor [#] and the
    key neither [&] nor [#], the URL of [Lists] is that of the board
    the receiver names, with the parameters [key] and [lists=all], and
    with a parameter [token] exactly when the token is not empty. *)
Theorem Lists_request (c : client) (b : board) :
  count_char "?" (board_ID b) = 0 -> count_char "#" (board_ID b) = 0 ->
  count_char "&" (key c) = 0 -> count_char "#" (key c) = 0 ->
  before_query (Lists_restURL c b) = baseURL ++ "/1/boards/" ++ board_GetID b
  /\ In ("key", key c) (query_params (Lists_restURL c b))
  /\ In ("lists", "all") (query_params (Lists_restURL c b))
  /\ (In "token" (query_param_names (Lists_restURL c b)) <-> token c <> EmptyString).
Proof.
  intros Hid2 Hid1 Hk3 Hk1.
  set (U := baseURL ++ "/1/boards/" ++ board_ID b).
  set (Q := ("key=" ++ key c) ++ String "&" "lists=all").
  assert (HU1 : count_char "#" U = 0).
  { unfold U. rewrite !count_char_append, Hid1. reflexivity. }
  assert (HU2 : count_char "?" U = 0).
  { unfold U. rewrite !count_char_append, Hid2. reflexivity. }
  assert (HQ1 : count_char "#" Q = 0).
  { unfold Q. rewrite !count_char_append, Hk1. reflexivity. }
  assert (HQs : split_on "&" Q = ["key=" ++ key c; "lists=all"]).
  { unfold Q. rewrite split_on_append, split_on_absent; [reflexivity | ].
    rewrite count_char_append, Hk3. reflexivity. }
  assert (Hshape : Lists_restURL c b = U ++ String "?" (Q ++ token_param c)).
  { rewrite Lists_restURL_shape. unfold U, Q.
    repeat (progress (rewrite ?append_assoc; simpl)). reflexivity. }
  rewrite Hshape.
  destruct (pieces_prefix U Q _ HU1 HU2 HQ1 (token_param_starts_piece c))
    as (Hb & rest & Hpieces).
  split; [exact Hb | ]. unfold query_params. rewrite Hpieces, HQs. cbn [map app].
  split; [left; apply parse_param_key | ].
  split; [right; left; reflexivity | ]. split.
  - intros Hin Ht. rewrite query_param_names_pieces in Hin.
    rewrite (token_param_empty c Ht) in Hin.
    destruct (raw_query_split U Q EmptyString HU1 HU2 HQ1) as [_ Hq].
    rewrite Hq in Hin. cbn [cut fst] in Hin.
    rewrite append_nil_r, HQs in Hin. cbn [map] in Hin.
    rewrite parse_param_key in Hin. simpl in Hin.
    destruct Hin as [Hin|[Hin|[]]]; discriminate Hin.
  - intros Ht. rewrite (token_param_nonempty c Ht).
    rewrite <- (append_nil_r (token c)).
    now apply (appended_param U Q "token" (token c) EmptyString).
Qed.

Lemma Lists_request_witness :
  before_query (Lists_restURL {| key := "K"; token := "T" |} sample_board)
  = baseURL ++ "/1/boards/" ++ board_GetID sample_board
  /\ In ("key", "K") (query_params (Lists_restURL {| key := "K"; token := "T" |}
                                                  sample_board))
  /\ In ("lists", "all") (query_params (Lists_restURL {| key := "K"; token := "T" |}
                                                      sample_board))
  /\ (In "token" (query_param_names (Lists_restURL {| key := "K"; token := "T" |}
                                                   sample_board))
      <-> "T" <> EmptyString).
Proof.
  exact (Lists_request {| key := "K"; token := "T" |} sample_board
           eq_refl eq_refl eq_refl eq_refl).
Defined.

(** ** What [Create] returns *)

(** X6.  When [Create] receives a status within 200-299 and a body
    that decodes as a list, it returns that list, with the decoded id
    and name and the client of the service, and a nil error; it has
    sent one POST and closed the body. *)
Theorem Create_round_trip (E : Env) (k t name boardID pos : string) (w : World)
    (code : Z) (status text : string) (j : list_json) :
  let c := {| key := k; token := t |} in
  let req := {| Method := "POST"; RequestURL := Create_restURL c name boardID pos |} in
  parse_url E (Create_restURL c name boardID pos) = None ->
  round_trip E (sent w) req = inl (code, status, text) ->
  (200 <= code <= 299)%Z ->
  decode_list E text = inl j ->
  exists ll,
    result_of (Create E (ListService (NewClient k t)) name boardID pos) w
    = Returned (Some ll, None)
    /\ list_GetID ll = json_id j /\ list_Name ll = json_name j
    /\ list_client ll = Some c
    /\ requests_of (Create E (ListService (NewClient k t)) name boardID pos) w = [req]
    /\ open_bodies (world_after (Create E (ListService (NewClient k t))
                                        name boardID pos) w)
       = open_bodies w.
Proof.
  intros c req Hu Hr Hcode Hd.
  assert (Hs : bad_status code = false).
  { unfold bad_status. apply orb_false_iff. split; lia. }
  exists {| list_client := Some c; list_ID := json_id j; ListName := json_name j |}.
  unfold result_of, requests_of, world_after.
  rewrite (Create_run E c (ListService (NewClient k t)) name boardID pos w eq_refl).
  cbv zeta. rewrite Hu. fold req. rewrite Hr, Hs, Hd. cbn [fst snd sent open_bodies].
  rewrite skipn_length_app. repeat split.
Qed.

Lemma Create_round_trip_witness :
  exists ll,
    result_of (Create (sample_env 201 "201 Created" body_list None)
                      (ListService (NewClient "K" "T")) "To Do" "B1" "top")
              new_world
    = Returned (Some ll, None)
    /\ list_GetID ll = "L1" /\ list_Name ll = "To Do".
Proof.
  destruct (Create_round_trip (sample_env 201 "201 Created" body_list None)
              "K" "T" "To Do" "B1" "top" new_world 201 "201 Created" body_list
              (json_list "L1" "To Do") eq_refl eq_refl
              (conj (Zle_bool_imp_le 200 201 eq_refl) (Zle_bool_imp_le 201 299 eq_refl))
              eq_refl)
    as (ll & Hres & Hid & Hname & _).
  exists ll. split; [exact Hres | split; [exact Hid | exact Hname]].
Defined.

(** ** Errors *)

(** X7.  [GetBoard] and [Lists] hand back the error of the step that
    failed, as it is: the error of [http.NewRequest], in which case
    nothing is sent and the world is untouched; the error of the
    transport; or the error of the decoder, the body being closed. *)
Theorem fetch_errors_verbatim (E : Env) (c : client) (b : board) (id : string)
    (w : World) (e : string) :
  board_client b = Some c ->
  let get := GetBoard E (BoardService (Some c)) id in
  let get_req := {| Method := "GET"; RequestURL := GetBoard_restURL c id |} in
  let lists_req := {| Method := "GET"; RequestURL := Lists_restURL c b |} in
  (parse_url E (GetBoard_restURL c id) = Some e ->
   get w = (Returned (None, Some e), w))
  /\ (parse_url E (GetBoard_restURL c id) = None ->
      round_trip E (sent w) get_req = inr e ->
      result_of get w = Returned (None, Some e)
      /\ open_bodies (world_after get w) = open_bodies w)
  /\ (parse_url E (GetBoard_restURL c id) = None ->
      forall code status text,
        round_trip E (sent w) get_req = inl (code, status, text) ->
        decode_board E text = inr e ->
        result_of get w = Returned (None, Some e)
        /\ open_bodies (world_after get w) = open_bodies w)
  /\ (parse_url E (Lists_restURL c b) = Some e ->
      Lists E b w = (Returned (None, Some e), w))
  /\ (parse_url E (Lists_restURL c b) = None ->
      round_trip E (sent w) lists_req = inr e ->
      result_of (Lists E b) w = Returned (None, Some e)
      /\ open_bodies (world_after (Lists E b) w) = open_bodies w)
  /\ (parse_url E (Lists_restURL c b) = None ->
      forall code status text,
        round_trip E (sent w) lists_req = inl (code, status, text) ->
        decode_board E text = inr e ->
        result_of (Lists E b) w = Returned (None, Some e)
        /\ open_bodies (world_after (Lists E b) w) = open_bodies w).
Proof.
  intros Hc get get_req lists_req. unfold result_of, world_after. subst get.
  rewrite (GetBoard_run E c (BoardService (Some c)) id w eq_refl).
  rewrite (Lists_run E c b w Hc). cbv zeta. fold get_req lists_req.
  split; [ | split; [ | split; [ | split; [ | split]]]].
  - now intros ->.
  - intros -> ->. now split.
  - intros -> code status text -> ->. now split.
  - now intros ->.
  - intros -> ->. now split.
  - intros -> code status text -> ->. now split.
Qed.

Lemma fetch_errors_verbatim_witness :
  GetBoard (sample_env 200 "200 OK" body_no_lists None)
           (BoardService (Some sample_client)) "%zz" new_world
  = (Returned (None, Some "invalid URL escape"), new_world)
  /\ result_of (Lists (sample_env 200 "200 OK" EmptyString None) sample_board)
               new_world
     = Returned (None, Some "EOF").
Proof.
  split.
  - destruct (fetch_errors_verbatim (sample_env 200 "200 OK" body_no_lists None)
                sample_client sample_board "%zz" new_world "invalid URL escape"
                eq_refl) as (Hrefused & _).
    exact (Hrefused eq_refl).
  - destruct (fetch_errors_verbatim (sample_env 200 "200 OK" EmptyString None)
                sample_client sample_board "B1" new_world "EOF" eq_refl)
      as (_ & _ & _ & _ & _ & Hdecode).
    exact (proj1 (Hdecode eq_refl 200%Z "200 OK" EmptyString eq_refl eq_refl)).
Defined.

(** X8.  [Rename], [Close] and [Create] hand back the error of
    [http.NewRequest] without sending anything, and the error of the
    transport after one request, no body being opened. *)
Theorem mutation_errors_verbatim (E : Env) (c : client) (m : mutation) (w : World)
    (e : string) :
  mutation_client m = Some c ->
  (parse_url E (RequestURL (mutation_request c m)) = Some e ->
   mutation_error E m w = (Returned (Some e), w))
  /\ (parse_url E (RequestURL (mutation_request c m)) = None ->
      round_trip E (sent w) (mutation_request c m) = inr e ->
      mutation_error E m w
      = (Returned (Some e),
         {| sent := sent w ++ [mutation_request c m];
            open_bodies := open_bodies w |})).
Proof.
  intros Hc. destruct m as [l n | l | s n b p]; simpl in Hc; simpl.
  - rewrite (Rename_run E c l n w Hc). cbv zeta.
    split; [now intros -> | intros -> ->; reflexivity].
  - rewrite (Close_run E c l w Hc). cbv zeta.
    split; [now intros -> | intros -> ->; reflexivity].
  - unfold bind. rewrite (Create_run E c s n b p w Hc). cbv zeta.
    split; [now intros -> | intros -> ->; reflexivity].
Qed.

Lemma mutation_errors_verbatim_witness :
  mutation_error (sample_env 200 "200 OK" body_list None)
    (CallRename {| list_client := Some sample_client; list_ID := "%zz";
                   ListName := "To Do" |} "Done") new_world
  = (Returned (Some "invalid URL escape"), new_world).
Proof.
  destruct (mutation_errors_verbatim (sample_env 200 "200 OK" body_list None)
              sample_client
              (CallRename {| list_client := Some sample_client; list_ID := "%zz";
                             ListName := "To Do" |} "Done")
              new_world "invalid URL escape" eq_refl) as (Hrefused & _).
  exact (Hrefused eq_refl).
Defined.

(** ** Requests *)

(** X9.  Whatever the transport and the decoder do, a call of
    [Lists], [Rename], [Close] or [Create] hands exactly the request it
    built to [Do] when [http.NewRequest] accepts its URL, and none
    otherwise: nothing is sent twice and nothing else is sent. *)
Theorem one_request_per_call (E : Env) (c : client) (w : World) :
  (forall b,
     board_client b = Some c ->
     requests_of (Lists E b) w
     = match parse_url E (Lists_restURL c b) with
       | None => [{| Method := "GET"; RequestURL := Lists_restURL c b |}]
       | Some _ => []
       end)
  /\ (forall m,
        mutation_client m = Some c ->
        requests_of (mutation_error E m) w
        = match parse_url E (RequestURL (mutation_request c m)) with
          | None => [mutation_request c m]
          | Some _ => []
          end).
Proof.
  unfold requests_of, world_after. split.
  - intros b Hc. rewrite (Lists_run E c b w Hc). cbv zeta.
    destruct (parse_url E _); [apply skipn_length_self | ].
    destruct (round_trip E _ _) as [[[code status] text]|err];
      [ | apply skipn_length_app].
    destruct (decode_board E text); [ | apply skipn_length_app].
    destruct (fst _); apply skipn_length_app.
  - intros m Hc. destruct m as [l n | l | s n b p]; simpl in Hc; simpl.
    + rewrite (Rename_run E c l n w Hc). cbv zeta.
      destruct (parse_url E _); [apply skipn_length_self | ].
      destruct (round_trip E _ _) as [[[code status] text]|err];
        apply skipn_length_app.
    + rewrite (Close_run E c l w Hc). cbv zeta.
      destruct (parse_url E _); [apply skipn_length_self | ].
      destruct (round_trip E _ _) as [[[code status] text]|err];
        apply skipn_length_app.
    + unfold bind. rewrite (Create_run E c s n b p w Hc). cbv zeta.
      destruct (parse_url E _); [apply skipn_length_self | ].
      destruct (round_trip E _ _) as [[[code status] text]|err];
        [ | apply skipn_length_app].
      destruct (bad_status code); apply skipn_length_app.
Qed.

Lemma one_request_per_call_witness :
  requests_of (mutation_error (sample_env 500 "500 Internal Server Error"
                                          EmptyString None)
                              (CallCreate (ListService (NewClient "K" EmptyString))
                                          "To Do" "B1" EmptyString)) new_world
  = match parse_url (sample_env 500 "500 Internal Server Error" EmptyString None)
            (RequestURL (mutation_request sample_client
                           (CallCreate (ListService (NewClient "K" EmptyString))
                                       "To Do" "B1" EmptyString))) with
    | None => [mutation_request sample_client
                 (CallCreate (ListService (NewClient "K" EmptyString))
                             "To Do" "B1" EmptyString)]
    | Some _ => []
    end.
Proof.
  destruct (one_request_per_call (sample_env 500 "500 Internal Server Error"
                                             EmptyString None)
              sample_client new_world) as (_ & Hm).
  exact (Hm (CallCreate (ListService (NewClient "K" EmptyString))
                        "To Do" "B1" EmptyString) eq_refl).
Defined.

(** ** Escaped arguments are not confused *)

Section Determined.

Lemma starts_piece_cut (S : string) : starts_piece S -> fst (cut "&" S) = EmptyString.
Proof. intros [->|[S' ->]]; reflexivity. Qed.

Lemma piece_determined (a b S T : string) :
  count_char "&" a = 0 -> count_char "&" b = 0 ->
  starts_piece S -> starts_piece T ->
  a ++ S = b ++ T -> a = b /\ S = T.
Proof.
  intros Ha Hb HS HT H.
  assert (Hab : a = b).
  { apply (f_equal (fun s => fst (cut "&" s))) in H.
    rewrite (fst_cut_append "&" a S Ha), (fst_cut_append "&" b T Hb) in H.
    now rewrite (starts_piece_cut S HS), (starts_piece_cut T HT), !append_nil_r in H. }
  split; [exact Hab | ]. subst b. now apply append_inv_head in H.
Qed.

Lemma QueryEscape_injective (a b : string) : QueryEscape a = QueryEscape b -> a = b.
Proof.
  intros H. apply (f_equal QueryUnescape) in H.
  rewrite !QueryUnescape_QueryEscape in H. now injection H.
Qed.

End Determined.

(** X10.  Two calls on the same list that differ in the new name build
    different URLs, and so do two calls of [Create] that differ in the
    name or in the board id: from the URL the escaped arguments are
    recovered, whatever the ids, key, token and [pos] hold. *)
Theorem escaped_arguments_determined (c : client) (l : list_)
    (n1 n2 name1 name2 board1 board2 pos1 pos2 : string) :
  (Rename_restURL c l n1 = Rename_restURL c l n2 -> n1 = n2)
  /\ (Create_restURL c name1 board1 pos1 = Create_restURL c name2 board2 pos2 ->
      name1 = name2 /\ board1 = board2).
Proof.
  assert (Hamp : forall s, count_char "&" (QueryEscape s) = 0).
  { intros s. now apply QueryEscape_excludes. }
  split.
  - rewrite !Rename_restURL_shape. intros H.
    apply append_inv_head in H. injection H as H.
    apply append_inv_head in H. injection H as H.
    apply piece_determined in H as [H _];
      auto using token_param_starts_piece.
    now apply QueryEscape_injective.
  - rewrite !Create_restURL_shape. intros H.
    apply append_inv_head in H. injection H as H.
    apply append_inv_head in H. injection H as H.
    apply piece_determined in H as [Hname H];
      auto; try (right; now eexists).
    injection H as H.
    apply piece_determined in H as [Hboard _];
      auto using pos_token_param_starts_piece.
    split; now apply QueryEscape_injective.
Qed.

Lemma escaped_arguments_determined_witness :
  "a&b" = "a&b" /\ "B 1" = "B 1".
Proof.
  destruct (escaped_arguments_determined sample_client sample_list
              "To Do" "To Do" "a&b" "a&b" "B 1" "B 1" "top" "top") as (_ & HCreate).
  exact (HCreate eq_refl).
Defined.

(** ** The command *)

Section Command.

Variable E : Env.

(** The board [main] gets from a decoded document, and the world in
    which it then calls [Lists]. *)
Lemma main_run (k t id : string) (w : World) :
  let c := {| key := k; token := t |} in
  let req := {| Method := "GET"; RequestURL := GetBoard_restURL c id |} in
  let w1 := {| sent := sent w ++ [req]; open_bodies := open_bodies w |} in
  main E k t id w =
  match parse_url E (GetBoard_restURL c id) with
  | Some err => (Returned (Println_err err), w)
  | None =>
      match round_trip E (sent w) req with
      | inr err => (Returned (Println_err err), w1)
      | inl (_, _, text) =>
          match decode_board E text with
          | inr err => (Returned (Println_err err), w1)
          | inl j =>
              match Lists E (set_board_client (fill_board zero_board j) (Some c)) w1 with
              | (Returned (ls, None), w2) => (Returned (PrettyPrinted ls), w2)
              | (Returned (_, Some err), w2) => (Returned (Println_err err), w2)
              | (Panicked, w2) => (Panicked, w2)
              end
          end
      end
  end.
Proof.
  intros c req w1. unfold main, bind.
  rewrite (GetBoard_run E c (BoardService (NewClient k t)) id w eq_refl).
  cbv zeta. fold req. destruct (parse_url E _); [reflexivity | ].
  destruct (round_trip E _ _) as [[[code status] text]|err]; [ | reflexivity].
  fold w1. destruct (decode_board E text) as [j|err]; [ | reflexivity].
  cbn [snd fst deref ret].
  destruct (Lists E _ w1) as [[[ls [err|]]|] w2]; reflexivity.
Qed.

Lemma Lists_sent (c : client) (b : board) (w : World) :
  board_client b = Some c ->
  sent (world_after (Lists E b) w) = sent w
  \/ sent (world_after (Lists E b) w)
     = (sent w ++ [{| Method := "GET"; RequestURL := Lists_restURL c b |}])%list.
Proof.
  intros Hc. unfold world_after. rewrite (Lists_run E c b w Hc). cbv zeta.
  destruct (parse_url E _); [now left | right].
  destruct (round_trip E _ _) as [[[code status] text]|err]; [ | reflexivity].
  destruct (decode_board E text); [ | reflexivity].
  destruct (fst _); reflexivity.
Qed.

Lemma Lists_sent_exact (c : client) (b : board) (w : World) :
  board_client b = Some c ->
  sent (world_after (Lists E b) w)
  = (sent w ++ match parse_url E (Lists_restURL c b) with
               | None => [{| Method := "GET"; RequestURL := Lists_restURL c b |}]
               | Some _ => []
               end)%list.
Proof.
  intros Hc. unfold world_after. rewrite (Lists_run E c b w Hc). cbv zeta.
  destruct (parse_url E _); [cbn [snd]; now rewrite app_nil_r | ].
  destruct (round_trip E _ _) as [[[code status] text]|err]; [ | reflexivity].
  destruct (decode_board E text); [ | reflexivity].
  destruct (fst _); reflexivity.
Qed.

End Command.

(** X11.  Whatever the service answers, [main] sends at most two
    requests, both GET, and leaves no response body open. *)
Theorem main_two_requests_no_leak (E : Env) (k t id : string) (w : World) :
  List.length (requests_of (main E k t id) w) <= 2
  /\ Forall (fun r => Method r = "GET") (requests_of (main E k t id) w)
  /\ open_bodies (world_after (main E k t id) w) = open_bodies w.
Proof.
  unfold requests_of, world_after. rewrite main_run. cbv zeta.
  destruct (parse_url E _).
  { cbn [snd]. rewrite skipn_length_self. simpl. repeat split; [lia | constructor]. }
  set (req := {| Method := "GET"; RequestURL := _ |}).
  assert (Hone : forall ob,
             skipn (List.length (sent w))
                   (sent {| sent := sent w ++ [req]; open_bodies := ob |}) = [req]).
  { intros ob. apply skipn_length_app. }
  destruct (round_trip E _ _) as [[[code status] text]|err];
    [ | cbn [snd]; rewrite Hone; simpl; repeat split; [lia | now constructor]].
  destruct (decode_board E text) as [j|err];
    [ | cbn [snd]; rewrite Hone; simpl; repeat split; [lia | now constructor]].
  set (d := set_board_client _ _).
  set (w1 := {| sent := _; open_bodies := _ |}).
  pose proof (Lists_closes_body E d w1) as Hbody.
  pose proof (Lists_sent E {| key := k; token := t |} d w1 eq_refl) as Hsent.
  unfold world_after in Hbody, Hsent.
  destruct (Lists E d w1) as [[[ls [err|]]|] w2]; cbn [snd] in *;
    rewrite Hbody; destruct Hsent as [-> | ->]; unfold w1; cbn [sent open_bodies];
    rewrite <- ?app_assoc, skipn_length_app; simpl;
    (repeat split; [lia | repeat constructor]).
Qed.

(** X12.  When the board document decodes, the second request of
    [main] asks for the lists of the board whose id the document
    gives, which need not be the id of the flag -b; it is sent with
    the same key and token, provided [http.NewRequest] accepts it. *)
Theorem main_second_request (E : Env) (k t id : string) (w : World)
    (code : Z) (status text : string) (j : board_json) :
  let c := {| key := k; token := t |} in
  let first := {| Method := "GET"; RequestURL := GetBoard_restURL c id |} in
  let second :=
    {| Method := "GET";
       RequestURL := baseURL ++ "/1/boards/" ++ jb_id j ++ "?key=" ++ k
                     ++ "&lists=all" ++ token_param c |} in
  parse_url E (GetBoard_restURL c id) = None ->
  round_trip E (sent w) first = inl (code, status, text) ->
  decode_board E text = inl j ->
  requests_of (main E k t id) w
  = first :: match parse_url E (RequestURL second) with
             | None => [second]
             | Some _ => []
             end.
Proof.
  intros c first second Hu Hr Hd.
  unfold requests_of, world_after. rewrite main_run. cbv zeta.
  fold c. fold first. rewrite Hu, Hr, Hd.
  set (d := set_board_client (fill_board zero_board j) (Some c)).
  set (w1 := {| sent := _; open_bodies := _ |}).
  assert (Hurl : Lists_restURL c d = RequestURL second).
  { unfold second, Lists_restURL, token_param. cbn [RequestURL].
    change (board_ID d) with (jb_id j). change (key c) with k.
    destruct (0 <? String.length (token c))%nat;
      repeat (progress (rewrite ?append_assoc, ?append_nil_r; simpl)); reflexivity. }
  pose proof (Lists_sent_exact E c d w1 eq_refl) as Hsent.
  unfold world_after in Hsent. rewrite Hurl in Hsent.
  change {| Method := "GET"; RequestURL := RequestURL second |} with second in Hsent.
  destruct (Lists E d w1) as [[[ls [err|]]|] w2]; cbn [snd] in *;
    rewrite Hsent; unfold w1; cbn [sent];
    rewrite <- app_assoc; apply skipn_length_app.
Qed.

Lemma main_second_request_witness :
  requests_of (main (mock_env 200 "200 OK" body_no_lists
                              (json_board "5f1a" "Roadmap" None)
                              (json_list "L1" "To Do"))
                    "K" EmptyString "short") new_world
  = [{| Method := "GET"; RequestURL := "https://api.trello.com/1/boards/short?key=K" |};
     {| Method := "GET";
        RequestURL := "https://api.trello.com/1/boards/5f1a?key=K&lists=all" |}].
Proof.
  exact (main_second_request
           (mock_env 200 "200 OK" body_no_lists (json_board "5f1a" "Roadmap" None)
                     (json_list "L1" "To Do"))
           "K" EmptyString "short" new_world 200 "200 OK" body_no_lists
           (json_board "5f1a" "Roadmap" None) eq_refl eq_refl eq_refl).
Defined.

(** X13.  [main] prints the error of the first step that fails, after
    [err: ] and one more space and before a newline, and stops: when
    [GetBoard] fails no second request is made.  When both steps
    succeed it pretty-prints the lists [Lists] returned. *)
Theorem main_output (E : Env) (k t id : string) (w : World) :
  let get := GetBoard E (BoardService (NewClient k t)) id in
  (forall e,
     result_of get w = Returned (None, Some e) ->
     main E k t id w
     = (Returned (Printed ("err:  " ++ e ++ newline)), world_after get w))
  /\ (forall d,
        result_of get w = Returned (Some d, None) ->
        (forall e,
           result_of (Lists E d) (world_after get w) = Returned (None, Some e) ->
           result_of (main E k t id) w
           = Returned (Printed ("err:  " ++ e ++ newline)))
        /\ (forall ls,
              result_of (Lists E d) (world_after get w) = Returned (Some ls, None) ->
              result_of (main E k t id) w = Returned (PrettyPrinted (Some ls)))).
Proof.
  intros get. unfold result_of, world_after. subst get. rewrite main_run.
  rewrite (GetBoard_run E {| key := k; token := t |}
             (BoardService (NewClient k t)) id w eq_refl).
  cbv zeta. split.
  - intros e. destruct (parse_url E _);
      [intros H; injection H as <-; reflexivity | ].
    destruct (round_trip E _ _) as [[[code status] text]|err];
      [ | intros H; injection H as <-; reflexivity].
    destruct (decode_board E text); [discriminate | ].
    intros H; injection H as <-; reflexivity.
  - intros d. destruct (parse_url E _); [discriminate | ].
    destruct (round_trip E _ _) as [[[code status] text]|err]; [ | discriminate].
    destruct (decode_board E text) as [j|err]; [ | discriminate].
    cbn [fst snd]. intros H. injection H as <-. split.
    + intros e. destruct (Lists E _ _) as [[[ls [err|]]|] w2]; cbn [fst];
        intros H; try discriminate H. now injection H as _ <-.
    + intros ls. destruct (Lists E _ _) as [[[ls' [err|]]|] w2]; cbn [fst];
        intros H; try discriminate H. now injection H as <-.
Qed.

Lemma main_output_witness :
  main (sample_env 200 "200 OK" EmptyString None) "K" EmptyString "B1" new_world
  = (Returned (Printed ("err:  " ++ "EOF" ++ newline)),
     world_after (GetBoard (sample_env 200 "200 OK" EmptyString None)
                           (BoardService (NewClient "K" EmptyString)) "B1")
                 new_world).
Proof.
  destruct (main_output (sample_env 200 "200 OK" EmptyString None)
              "K" EmptyString "B1" new_world) as (Herr & _).
  exact (Herr "EOF" eq_refl).
Defined.

(** ** The earlier versions *)

Section EarlierFacts.

Lemma length_append (a b : string) :
  String.length (a ++ b) = String.length a + String.length b.
Proof. induction a as [|c a IH]; simpl; [reflexivity | now rewrite IH]. Qed.

Lemma append_inv_tail (a b t : string) : a ++ t = b ++ t -> a = b.
Proof.
  revert b. induction a as [|x a IH]; intros [|y b] H; simpl in H.
  - reflexivity.
  - apply (f_equal String.length) in H. simpl in H.
    rewrite length_append in H. lia.
  - apply (f_equal String.length) in H. simpl in H.
    rewrite length_append in H. lia.
  - injection H as -> H. now rewrite (IH b H).
Qed.

Lemma QueryEscape_length (s : string) :
  String.length s <= String.length (QueryEscape s).
Proof.
  induction s as [|c s IH]; simpl; [lia | ].
  rewrite length_append. unfold escape_byte.
  destruct (Ascii.eqb c " "); [simpl; lia | ].
  destruct (shouldEscape c); simpl; lia.
Qed.

(** Only a string of unreserved bytes is its own escape. *)
Lemma QueryEscape_fixed (s : string) : QueryEscape s = s -> plain s = true.
Proof.
  unfold plain. induction s as [|c s IH]; simpl; [reflexivity | ].
  unfold escape_byte. destruct (Ascii.eqb_spec c " ") as [->|Hc].
  - simpl. intros H. injection H as H _. discriminate H.
  - destruct (shouldEscape c) eqn:Hs; simpl; intros H.
    + injection H as _ H. apply (f_equal String.length) in H. simpl in H.
      pose proof (QueryEscape_length s). lia.
    + injection H as H. now rewrite (IH H).
Qed.

Lemma earlier_Lists_loop (src : list (ptr list_)) :
  forall (done : list (ptr list_)) (w : World),
    Earlier.Lists_loop src (List.length done)
      (done ++ repeat None (List.length src))%list w
    = (Returned (done ++ src)%list, w).
Proof.
  induction src as [|p src IH]; intros done w; simpl.
  - unfold ret. now rewrite !app_nil_r.
  - rewrite set_index_middle.
    specialize (IH (done ++ [p])%list w).
    rewrite <- !app_assoc, length_app, Nat.add_1_r in IH. exact IH.
Qed.

End EarlierFacts.

(** X14.  The earlier [Rename], which writes the new name into the URL
    as it is, builds the URL of the present [Rename] exactly for the
    names made of unreserved bytes, and for those names the two
    versions behave alike; for any other name the URLs differ, every
    byte of the name reaching the URL unescaped. *)
Theorem earlier_Rename_agrees (E : Env) (c : client) (l : list_) (newName : string)
    (w : World) :
  (Earlier.Rename_restURL c l newName = Rename_restURL c l newName
   <-> plain newName = true)
  /\ (plain newName = true -> Earlier.Rename E l newName w = Rename E l newName w)
  /\ (forall m : ascii,
        count_char m (Earlier.Rename_restURL c l newName)
        = count_char m (Earlier.Rename_restURL c l EmptyString)
          + count_char m newName).
Proof.
  assert (Hshape : forall n,
             Earlier.Rename_restURL c l n
             = (baseURL ++ "/1/lists/" ++ list_ID l ++ "/name?key=" ++ key c
                        ++ "&value=") ++ n ++ token_param c).
  { intros n. unfold Earlier.Rename_restURL, token_param.
    destruct (0 <? String.length (token c))%nat;
      repeat (progress (rewrite ?append_assoc, ?append_nil_r; simpl)); reflexivity. }
  assert (Hnow : Rename_restURL c l newName
                 = Earlier.Rename_restURL c l (QueryEscape newName)).
  { reflexivity. }
  split; [ | split].
  - rewrite Hnow, !Hshape. split.
    + intros H. apply append_inv_head, append_inv_tail in H.
      now apply QueryEscape_fixed.
    + intros H. now rewrite (QueryEscape_plain newName H).
  - intros H. unfold Earlier.Rename, Rename.
    destruct (list_client l) as [c'|]; [ | reflexivity].
    unfold bind, deref, ret.
    change (Rename_restURL c' l newName)
      with (Earlier.Rename_restURL c' l (QueryEscape newName)).
    now rewrite (QueryEscape_plain newName H).
  - intros m. rewrite !Hshape, !count_char_append. simpl. lia.
Qed.

Lemma earlier_Rename_agrees_witness :
  Earlier.Rename (sample_env 200 "200 OK" body_list None) sample_list "Done" new_world
  = Rename (sample_env 200 "200 OK" body_list None) sample_list "Done" new_world.
Proof.
  destruct (earlier_Rename_agrees (sample_env 200 "200 OK" body_list None)
              sample_client sample_list "Done" new_world) as (_ & Hsame & _).
  exact (Hsame eq_refl).
Defined.

(** X15.  The earlier [Lists], which sets the client of the decoded
    board but not of its lists, sends the same request and leaves the
    same world as the present one; it returns the decoded lists as the
    decoder gave them, without a client, a null staying a nil pointer,
    and so it does not panic where the present [Lists] does. *)
Theorem earlier_Lists_unstamped (E : Env) (c : client) (b : board) (w : World)
    (code : Z) (status text : string) (j : board_json) :
  board_client b = Some c ->
  parse_url E (Lists_restURL c b) = None ->
  round_trip E (sent w) {| Method := "GET"; RequestURL := Lists_restURL c b |}
  = inl (code, status, text) ->
  decode_board E text = inl j ->
  result_of (Earlier.Lists E b) w
  = Returned
      (Some (map (option_map
                    (fun l => {| list_client := None; list_ID := json_id l;
                                 ListName := json_name l |}))
                 match jb_lists j with Some src => src | None => [] end),
       None)
  /\ world_after (Earlier.Lists E b) w = world_after (Lists E b) w.
Proof.
  intros Hc Hu Hr Hd.
  set (w' := {| sent := sent w ++ [{| Method := "GET";
                                      RequestURL := Lists_restURL c b |}];
                open_bodies := open_bodies w |}).
  assert (He : Earlier.Lists E b w
               = (Returned
                    (Some (map (option_map (fill_list zero_list))
                               match jb_lists j with Some src => src | None => [] end),
                     None), w')).
  { unfold Earlier.Lists, bind, deref, ret, NewRequest, Do, Close_body, Decode_board.
    rewrite Hc. cbn [fst snd]. rewrite Hu. cbn [sent open_bodies]. rewrite Hr.
    cbn [ResponseBody content body_id sent open_bodies]. rewrite Hd.
    cbn [sent open_bodies remove_first]. rewrite Nat.eqb_refl. fold w'.
    set (d := set_board_client (fill_board zero_board j) (Some c)).
    assert (Hsrc : match BoardLists d with Some src => src | None => [] end
                   = map (option_map (fill_list zero_list))
                         match jb_lists j with Some src => src | None => [] end).
    { unfold d. simpl. now destruct (jb_lists j). }
    assert (Hmake : make (@None list_) (len (BoardLists d))
                    = repeat None
                        (List.length match BoardLists d with
                                     | Some src => src | None => [] end)).
    { now destruct (BoardLists d). }
    rewrite Hmake.
    pose proof (earlier_Lists_loop match BoardLists d with
                                   | Some src => src | None => [] end [] w') as Hloop.
    cbn [app] in Hloop. change (List.length (@nil (ptr list_))) with 0 in Hloop.
    rewrite Hloop, Hsrc. reflexivity. }
  unfold result_of, world_after. rewrite He. split; [reflexivity | ].
  rewrite (Lists_run E c b w Hc). cbv zeta. rewrite Hu, Hr, Hd.
  destruct (fst _); reflexivity.
Qed.

Lemma earlier_Lists_unstamped_witness :
  result_of (Earlier.Lists (sample_env 200 "200 OK" body_empty_lists
                              (Some [Some (json_list "L1" "To Do"); None]))
                           sample_board) new_world
  = Returned
      (Some (map (option_map
                    (fun l => {| list_client := None; list_ID := json_id l;
                                 ListName := json_name l |}))
                 [Some (json_list "L1" "To Do"); None]),
       None).
Proof.
  exact (proj1 (earlier_Lists_unstamped
                  (sample_env 200 "200 OK" body_empty_lists
                     (Some [Some (json_list "L1" "To Do"); None]))
                  sample_client sample_board new_world 200 "200 OK" body_empty_lists
                  (json_board "B1" "Roadmap"
                     (Some [Some (json_list "L1" "To Do"); None]))
                  eq_refl eq_refl eq_refl eq_refl)).
Defined.

(** ** Panics *)

(** X16.  With a client made by [NewClient], [GetBoard] and [Create]
    never panic, whatever the service answers, and [main] panics only
    where its call of [Lists] does. *)
Theorem services_do_not_panic (E : Env) (k t : string) (w : World) :
  (forall id, result_of (GetBoard E (BoardService (NewClient k t)) id) w <> Panicked)
  /\ (forall name boardID pos,
        result_of (Create E (ListService (NewClient k t)) name boardID pos) w
        <> Panicked)
  /\ (forall id,
        result_of (main E k t id) w = Panicked ->
        exists d w1,
          result_of (GetBoard E (BoardService (NewClient k t)) id) w
          = Returned (Some d, None)
          /\ w1 = world_after (GetBoard E (BoardService (NewClient k t)) id) w
          /\ result_of (Lists E d) w1 = Panicked).
Proof.
  unfold result_of, world_after. split; [ | split].
  - intros id.
    rewrite (GetBoard_run E {| key := k; token := t |}
               (BoardService (NewClient k t)) id w eq_refl). cbv zeta.
    destruct (parse_url E _); [discriminate | ].
    destruct (round_trip E _ _) as [[[code status] text]|err]; discriminate.
  - intros name boardID pos.
    rewrite (Create_run E {| key := k; token := t |}
               (ListService (NewClient k t)) name boardID pos w eq_refl). cbv zeta.
    destruct (parse_url E _); [discriminate | ].
    destruct (round_trip E _ _) as [[[code status] text]|err]; [ | discriminate].
    destruct (bad_status code); discriminate.
  - intros id. rewrite main_run.
    rewrite (GetBoard_run E {| key := k; token := t |}
               (BoardService (NewClient k t)) id w eq_refl). cbv zeta.
    destruct (parse_url E _); [discriminate | ].
    destruct (round_trip E _ _) as [[[code status] text]|err]; [ | discriminate].
    destruct (decode_board E text) as [j|err]; [ | discriminate].
    cbn [fst snd]. intros H. eexists. eexists.
    split; [reflexivity | split; [reflexivity | ]].
    destruct (Lists E _ _) as [[[ls [err|]]|] w2]; cbn [fst] in *;
      try discriminate H. reflexivity.
Qed.

Lemma services_do_not_panic_witness :
  exists d w1,
    result_of (GetBoard (sample_env 200 "200 OK" body_empty_lists (Some [None]))
                        (BoardService (NewClient "K" EmptyString)) "B1") new_world
    = Returned (Some d, None)
    /\ w1 = world_after
              (GetBoard (sample_env 200 "200 OK" body_empty_lists (Some [None]))
                        (BoardService (NewClient "K" EmptyString)) "B1") new_world
    /\ result_of (Lists (sample_env 200 "200 OK" body_empty_lists (Some [None])) d) w1
       = Panicked.
Proof.
  destruct (services_do_not_panic (sample_env 200 "200 OK" body_empty_lists (Some [None]))
              "K" EmptyString new_world) as (_ & _ & Hmain).
  exact (Hmain "B1" eq_refl).
Defined.

(** ** Bodies, in general *)

(** X17.  A response that [Rename] or [Close] receives leaves one more
    body open when the call returns, numbered by the position of the
    request, whatever the status; so does a response that [Create]
    rejects for its status.  Only a [Create] that accepts the status
    leaves the open bodies as they were. *)
Theorem mutation_open_bodies (E : Env) (c : client) (m : mutation) (w : World)
    (code : Z) (status text : string) :
  mutation_client m = Some c ->
  parse_url E (RequestURL (mutation_request c m)) = None ->
  round_trip E (sent w) (mutation_request c m) = inl (code, status, text) ->
  open_bodies (world_after (mutation_error E m) w)
  = match m with
    | CallCreate _ _ _ _ =>
        if ((200 <=? code) && (code <=? 299))%Z then open_bodies w
        else List.length (sent w) :: open_bodies w
    | _ => List.length (sent w) :: open_bodies w
    end.
Proof.
  intros Hc Hu Hr. unfold world_after.
  destruct m as [l n | l | s n b p]; simpl in Hc, Hu, Hr; simpl.
  - rewrite (Rename_run E c l n w Hc). cbv zeta. now rewrite Hu, Hr.
  - rewrite (Close_run E c l w Hc). cbv zeta. now rewrite Hu, Hr.
  - unfold bind. rewrite (Create_run E c s n b p w Hc). cbv zeta. rewrite Hu, Hr.
    assert (Hs : bad_status code = negb ((200 <=? code) && (code <=? 299))%Z).
    { unfold bad_status. rewrite negb_andb, Z.gtb_ltb, !Z.leb_antisym, !negb_involutive.
      reflexivity. }
    rewrite Hs. now destruct ((200 <=? code) && (code <=? 299))%Z.
Qed.

Lemma mutation_open_bodies_witness :
  open_bodies (world_after
                 (mutation_error (sample_env 500 "500 Internal Server Error"
                                             EmptyString None)
                                 (CallClose sample_list))
                 {| sent := [{| Method := "GET"; RequestURL := "u" |}];
                    open_bodies := [0] |})
  = [1; 0].
Proof.
  exact (mutation_open_bodies (sample_env 500 "500 Internal Server Error"
                                          EmptyString None)
           sample_client (CallClose sample_list)
           {| sent := [{| Method := "GET"; RequestURL := "u" |}]; open_bodies := [0] |}
           500 "500 Internal Server Error" EmptyString eq_refl eq_refl eq_refl).
Defined.

(** X18.  [GetBoard] and [Lists] leave the open bodies as they found
    them in every world and for every behaviour of the service and of
    the decoder: on a transport error no body was opened, and after a
    response the body is closed whether it decodes or not, also when
    the loop of [Lists] panics afterwards. *)
Theorem fetches_close_bodies (E : Env) (w : World) :
  (forall (s : boardService) (id : string),
     open_bodies (world_after (GetBoard E s id) w) = open_bodies w)
  /\ (forall b : board,
        open_bodies (world_after (Lists E b) w) = open_bodies w).
Proof.
  split; [intros s id; apply GetBoard_closes_body | intros b; apply Lists_closes_body].
Qed.
